(** * firebase-to-supabase: the function transpiler and the document-tree exporter

    A shallow embedding of [functions/migrate-functions.js] (class
    [FunctionMigrator]) and of the compiled exporter [firestore2json.js],
    followed by the properties of the two tools.

    JavaScript strings are sequences of code units; they are modelled by
    [string].  Every character the two programs tell apart (braces, quotes,
    word characters, digits, the characters of the literal patterns) is an
    ASCII character, so the algorithms below do not depend on the size of the
    alphabet. *)

From Stdlib Require Import ZArith Ascii String Lia.
From stdpp Require Import base option list strings gmap.

(** ** JavaScript preliminaries *)

Module Js.

(** The outcome of a call that may throw: the returned value, or the
    message of the error that was thrown. *)
Inductive Result (A : Type) : Type :=
| Ok (value : A)
| Throw (message : string).
Arguments Ok {A} value.
Arguments Throw {A} message.

Definition bindResult {A B : Type} (r : Result A) (k : A -> Result B) : Result B :=
  match r with
  | Ok a => k a
  | Throw e => Throw e
  end.

(** The double quote, which a string literal cannot hold. *)
Definition dquote : ascii := "034"%char.

(** [s.startsWith(pat)] *)
Fixpoint startsWith (pat s : string) : bool :=
  match pat, s with
  | EmptyString, _ => true
  | String _ _, EmptyString => false
  | String a pat', String b s' => Ascii.eqb a b && startsWith pat' s'
  end.

(** [s.includes(pat)] *)
Fixpoint includes (s pat : string) : bool :=
  match s with
  | EmptyString => startsWith pat EmptyString
  | String _ rest => startsWith pat s || includes rest pat
  end.

(** [s.substring(n)] for [0 <= n]: what is left after the first [n] code units. *)
Fixpoint substringFrom (n : nat) (s : string) : string :=
  match n, s with
  | O, _ => s
  | S _, EmptyString => EmptyString
  | S k, String _ rest => substringFrom k rest
  end.

(** [s.substring(0, n)] *)
Fixpoint substringTo (n : nat) (s : string) : string :=
  match n, s with
  | O, _ => EmptyString
  | S _, EmptyString => EmptyString
  | S k, String c rest => String c (substringTo k rest)
  end.

(** Truthiness of a possibly undefined string: [undefined] and the empty
    string are falsy. *)
Definition truthyString (s : option string) : bool :=
  match s with
  | Some (String _ _) => true
  | _ => false
  end.

(** The character classes of the regular expressions. *)
Definition isDigit (c : ascii) : bool :=
  let n := nat_of_ascii c in (48 <=? n) && (n <=? 57).

Definition isUpper (c : ascii) : bool :=
  let n := nat_of_ascii c in (65 <=? n) && (n <=? 90).

Definition isLower (c : ascii) : bool :=
  let n := nat_of_ascii c in (97 <=? n) && (n <=? 122).

(** [\w] *)
Definition isWord (c : ascii) : bool :=
  isDigit c || isUpper c || isLower c || Ascii.eqb c "_".

(** The three quote characters of the patterns: single quote, double quote
    and backtick. *)
Definition isQuote (c : ascii) : bool :=
  Ascii.eqb c "'" || Ascii.eqb c dquote || Ascii.eqb c "`".

(** The longest prefix whose characters satisfy [p], and the rest: what a
    greedy [[class]*] consumes. *)
Fixpoint span (p : ascii -> bool) (s : string) : string * string :=
  match s with
  | EmptyString => (EmptyString, EmptyString)
  | String c rest =>
      if p c then let '(run, tail) := span p rest in (String c run, tail)
      else (EmptyString, s)
  end.

(** [s] without its prefix [pat], when it starts with it. *)
Fixpoint stripPrefix (pat s : string) : option string :=
  match pat, s with
  | EmptyString, _ => Some s
  | String _ _, EmptyString => None
  | String a pat', String b s' => if Ascii.eqb a b then stripPrefix pat' s' else None
  end.

(** The number of occurrences of the character [c] in [s]. *)
Fixpoint countChar (c : ascii) (s : string) : nat :=
  match s with
  | EmptyString => 0
  | String a rest => (if Ascii.eqb a c then 1 else 0) + countChar c rest
  end.


(** Every code unit of [s] is of the class [p]. *)
Fixpoint allChars (p : ascii -> bool) (s : string) : bool :=
  match s with
  | EmptyString => true
  | String c rest => p c && allChars p rest
  end.

(** A text that holds no line feed: a line. *)
Definition isLine (s : string) : Prop := countChar "010"%char s = 0.


(** The code units that [trim] removes, among those below 256: tab, line
    feed, vertical tab, form feed, carriage return, space and the no-break
    space. *)
Definition isWhiteSpace (c : ascii) : bool :=
  let n := nat_of_ascii c in
  ((9 <=? n) && (n <=? 13)) || (n =? 32) || (n =? 160).

(** [s.trim()] is the empty string. *)
Fixpoint isBlank (s : string) : bool :=
  match s with
  | EmptyString => true
  | String c rest => isWhiteSpace c && isBlank rest
  end.

Definition lineFeed : ascii := "010"%char.

(** [s.split('\n')]: the lines of a text; the empty text has one, empty, line. *)
Fixpoint splitLines (s : string) : list string :=
  match s with
  | EmptyString => [EmptyString]
  | String c rest =>
      if Ascii.eqb c lineFeed then EmptyString :: splitLines rest
      else match splitLines rest with
           | line :: lines => String c line :: lines
           | [] => [String c EmptyString]
           end
  end.

(** [lines.join('\n')] *)
Fixpoint joinLines (lines : list string) : string :=
  match lines with
  | [] => EmptyString
  | [line] => line
  | line :: lines' => line +:+ String lineFeed (joinLines lines')
  end.

(** [' '.repeat(n)] *)
Fixpoint spaces (n : nat) : string :=
  match n with
  | O => EmptyString
  | S k => String " " (spaces k)
  end.

End Js.

(** ** The function transpiler ([functions/migrate-functions.js]) *)

Module Transpiler.
Import Js.

(** *** Body Extractor *)

(** The state of the loop of [extractFunctionBody] is [depth], [inFunction]
    and [body]; [rest] is the text from index [i] on.  The result is the
    value of [body] when the loop ends, by [break] or at the end of the
    text. *)
Fixpoint scanBody (depth : Z) (inFunction : bool) (body rest : string) : string :=
  match rest with
  | EmptyString => body
  | String char rest' =>
      let opened := Ascii.eqb char "{" in
      let depth1 := if opened then (depth + 1)%Z else depth in
      let inFunction1 := if opened then true else inFunction in
      let body1 := if inFunction1 then body +:+ String char EmptyString else body in
      if Ascii.eqb char "}" then
        let depth2 := (depth1 - 1)%Z in
        if (depth2 =? 0)%Z && inFunction1 then body1
        else scanBody depth2 inFunction1 body1 rest'
      else scanBody depth1 inFunction1 body1 rest'
  end.

Definition extractFunctionBody (content : string) (startIndex : nat) : string :=
  scanBody 0 false EmptyString (substringFrom startIndex content).

(** The vocabulary of the balance property: open and close braces of a text. *)
Definition opens (s : string) : nat := countChar "{" s.


(** *** Function Scanner *)

Definition normalizeType (type : string) : string :=
  if includes type "https" || includes type "http" then "https"
  else if includes type "callable" then "callable"
  else if includes type "firestore" then "firestore"
  else if includes type "auth" then "auth"
  else if includes type "storage" then "storage"
  else if includes type "pubsub" then "pubsub"
  else if includes type "scheduler" then "scheduler"
  else type.

(** The keys of the [patterns] registry of [parseCloudFunctions], in the
    order [Object.entries] yields them. *)
Definition patterns : list string :=
  [ "https"; "callable"; "firestore"; "auth"; "storage"; "pubsub"; "scheduler";
    "https_es6"; "callable_es6"; "firestore_es6"; "auth_es6";
    "http_factory"; "callable_factory"; "firestore_factory"; "scheduled_factory";
    "export_http"; "export_callable"; "export_firestore"; "export_scheduled";
    "handler"; "async_handler" ].

(** What [RegExp.prototype.exec] returns for a match: its offset, the
    matched text and the capture groups.  Every pattern of the registry has
    a first group that always takes part in the match; the second and third
    are [undefined] where the pattern has none. *)
Record RegExpMatch : Type := {
  index : nat;
  matched : string;
  group1 : string;
  group2 : option string;
  group3 : option string
}.

(** The regular-expression engine of the runtime, as far as the scanner
    uses it: [exec key content] lists the successive matches of the registry
    pattern [key]; [handlerPattern name content] and
    [exportPattern name content] are the first match of the two expressions
    [extractModernFunctionBody] builds from a function name (building one
    throws a [SyntaxError] when the name does not make a well-formed
    expression); [asyncFunctionPattern content] is the first match of the
    fallback expression. *)
Record RegExpEngine : Type := {
  exec : string -> string -> list RegExpMatch;
  handlerPattern : string -> string -> Result (option RegExpMatch);
  exportPattern : string -> string -> Result (option RegExpMatch);
  asyncFunctionPattern : string -> option RegExpMatch
}.

(** The objects [parseCloudFunctions] and [parseFunctionsFromFirebase]
    build.  A field that was never assigned is [None]. *)
Record FunctionRecord : Type := {
  name : string;
  type : string;
  source : string;
  raw : option string;
  document : option string;
  trigger : option string;
  schedule : option string;
  body : option string;
  url : option string
}.

Definition setDocument (v : option string) (f : FunctionRecord) : FunctionRecord :=
  {| name := name f; type := type f; source := source f; raw := raw f;
     document := v; trigger := trigger f; schedule := schedule f;
     body := body f; url := url f |}.

Definition setTrigger (v : option string) (f : FunctionRecord) : FunctionRecord :=
  {| name := name f; type := type f; source := source f; raw := raw f;
     document := document f; trigger := v; schedule := schedule f;
     body := body f; url := url f |}.

Definition setSchedule (v : option string) (f : FunctionRecord) : FunctionRecord :=
  {| name := name f; type := type f; source := source f; raw := raw f;
     document := document f; trigger := trigger f; schedule := v;
     body := body f; url := url f |}.

Definition setBody (v : option string) (f : FunctionRecord) : FunctionRecord :=
  {| name := name f; type := type f; source := source f; raw := raw f;
     document := document f; trigger := trigger f; schedule := schedule f;
     body := v; url := url f |}.

(** The pattern families whose body is not inline: the scanner looks for
    a related definition instead of scanning from the match. *)
Definition modernStyle (key : string) : bool :=
  includes key "_es6" || includes key "_factory" || includes key "export_".

(** The minimal-length filter: [func.body.length > 10]. *)
Definition keepsBody (b : string) : bool := 10 <? String.length b.

Section Scanner.
Variable engine : RegExpEngine.

Definition extractModernFunctionBody (content functionName : string) : Result string :=
  bindResult (handlerPattern engine functionName content) (fun handlerMatch =>
  match handlerMatch with
  | Some m => Ok (extractFunctionBody content (index m))
  | None =>
      bindResult (exportPattern engine functionName content) (fun exportMatch =>
      match exportMatch with
      | Some m => Ok (matched m)
      | None =>
          match asyncFunctionPattern engine content with
          | Some m => Ok (matched m)
          | None => Ok (substringTo (Nat.min 1000 (String.length content)) content)
          end
      end)
  end).

(** The type a record carries once the factory and export families have
    been overridden; [None] for the two handler families, which [continue]. *)
Definition recordType (key : string) : option string :=
  if String.eqb key "http_factory" || String.eqb key "export_http" then Some "https"
  else if String.eqb key "callable_factory" || String.eqb key "export_callable" then Some "callable"
  else if String.eqb key "firestore_factory" || String.eqb key "export_firestore" then Some "firestore"
  else if String.eqb key "scheduled_factory" || String.eqb key "export_scheduled" then Some "scheduler"
  else if includes key "handler" || includes key "async_handler" then None
  else Some (normalizeType key).

(** The body of the [while] loop for one match [m] of the pattern [key]:
    the record that is pushed, if any. *)
Definition recordOfMatch (key content filename : string) (m : RegExpMatch)
  : Result (option FunctionRecord) :=
  match recordType key with
  | None => Ok None
  | Some ty =>
      let func := {| name := group1 m; type := ty; source := filename;
                     raw := Some (matched m); document := None; trigger := None;
                     schedule := None; body := None; url := None |} in
      let func :=
        if includes key "firestore" then setTrigger (group3 m) (setDocument (group2 m) func)
        else if includes key "auth" then setTrigger (group2 m) func
        else if includes key "storage" then setTrigger (group2 m) func
        else if includes key "pubsub" || includes key "scheduler" then setSchedule (group2 m) func
        else func in
      bindResult
        (if modernStyle key
         then extractModernFunctionBody content (name func)
         else Ok (extractFunctionBody content (index m)))
        (fun b =>
           let func := setBody (Some b) func in
           if truthyString (body func) && keepsBody b then Ok (Some func) else Ok None)
  end.

(** The inner loop: the matches of one pattern, in order. *)
Fixpoint scanMatches (key content filename : string) (ms : list RegExpMatch)
  (functions : list FunctionRecord) : Result (list FunctionRecord) :=
  match ms with
  | [] => Ok functions
  | m :: ms' =>
      bindResult (recordOfMatch key content filename m) (fun r =>
      scanMatches key content filename ms'
        (match r with Some func => functions ++ [func] | None => functions end))
  end.

(** The outer loop: the patterns of the registry, in order. *)
Fixpoint scanPatterns (keys : list string) (content filename : string)
  (functions : list FunctionRecord) : Result (list FunctionRecord) :=
  match keys with
  | [] => Ok functions
  | key :: keys' =>
      bindResult (scanMatches key content filename (exec engine key content) functions)
        (scanPatterns keys' content filename)
  end.

Definition parseCloudFunctions (content filename : string) : Result (list FunctionRecord) :=
  scanPatterns patterns content filename [].

End Scanner.

(** *** API Rewriter *)

(** One [replace] with a global expression.  A rule says, for the text that
    starts at a position, whether the expression matches there and, if so,
    the replacement text and the length of the match (never zero for the
    expressions used).  The scan goes left to right; after a match it resumes
    behind the matched text, which [skip] counts down. *)
Definition Rule : Type := string -> option (string * nat).

Fixpoint replaceAll (rule : Rule) (skip : nat) (s : string) : string :=
  match s with
  | EmptyString => EmptyString
  | String c rest =>
      match skip with
      | S k => replaceAll rule k rest
      | O =>
          match rule s with
          | Some (replacement, len) => replacement +:+ replaceAll rule (len - 1) rest
          | None => String c (replaceAll rule 0 rest)
          end
      end
  end.

Definition replace (rule : Rule) (s : string) : string := replaceAll rule 0 s.

(** An expression without classes or groups: a literal text. *)
Definition literal (pat replacement : string) : Rule :=
  fun s => if startsWith pat s then Some (replacement, String.length pat) else None.

(** A quote, a non-empty greedy run of characters of the class [p], a quote:
    the run and what follows the closing quote.  No character of the two
    classes used is a quote, so a shorter run never helps and the greedy run
    decides the match. *)
Definition quoted (p : ascii -> bool) (s : string) : option (string * string) :=
  match s with
  | String q rest =>
      if isQuote q then
        match span p rest with
        | (String c run, String q' tail) =>
            if isQuote q' then Some (String c run, tail) else None
        | _ => None
        end
      else None
  | EmptyString => None
  end.

(** The expression for [.collection('name')], with [$1] in the replacement. *)
Definition collectionRule : Rule :=
  fun s =>
    match stripPrefix ".collection(" s with
    | Some rest =>
        match quoted isWord rest with
        | Some (g, String ")" _) =>
            Some (".from('" +:+ g +:+ "')", String.length ".collection(" + String.length g + 3)
        | _ => None
        end
    | None => None
    end.

(** The expression for [.doc('id')], with [$1] in the replacement. *)
Definition docRule : Rule :=
  fun s =>
    match stripPrefix ".doc(" s with
    | Some rest =>
        match quoted (fun c => negb (isQuote c)) rest with
        | Some (g, String ")" _) =>
            Some (".select().eq('id', '" +:+ g +:+ "').single()",
                  String.length ".doc(" + String.length g + 3)
        | _ => None
        end
    | None => None
    end.

(** The expression for [res.status(200).send(], with [$1] in the replacement. *)
Definition statusRule : Rule :=
  fun s =>
    match stripPrefix "res.status(" s with
    | Some rest =>
        match span isDigit rest with
        | (String d ds, tail) =>
            if startsWith ").send(" tail
            then Some ("return new Response(" +:+ String d ds +:+ ", ",
                       String.length "res.status(" + String.length (String d ds)
                       + String.length ").send(")
            else None
        | _ => None
        end
    | None => None
    end.

(** The replacements of [convertFirebaseToSupabase], in the order of the source. *)
Definition rewriteRules : list Rule :=
  [ literal "admin.firestore()" "supabaseClient";
    literal "admin.auth()" "supabaseClient.auth.admin";
    literal "admin.storage()" "supabaseClient.storage";
    collectionRule;
    docRule;
    literal ".get()" EmptyString;
    literal ".data()" EmptyString;
    literal ".set(" ".insert(";
    literal ".update(" ".update(";
    literal ".delete()" ".delete()";
    literal "user.uid" "user.id";
    literal "context.auth.uid" "user.id";
    literal "admin.firestore.FieldValue.serverTimestamp()" "new Date().toISOString()";
    literal "res.json(" "return new Response(JSON.stringify(";
    statusRule;
    literal "res.send(" "return new Response(" ].

(** A text without a dot: every pattern of the rules holds one. *)
Definition dotFree (s : string) : Prop := countChar "." s = 0.

Definition applyRules (code : string) : string :=
  fold_left (fun converted rule => replace rule converted) rewriteRules code.

Definition newline : string := String "010"%char EmptyString.

Definition adminMarker : string :=
  "// TODO: Review Firebase Admin SDK usage" +:+ newline +:+ "    ".

Definition functionsMarker : string :=
  "// TODO: Review Firebase Functions usage" +:+ newline +:+ "    ".

(** The two final scans for residual namespace tokens. *)
Definition addReviewMarkers (converted : string) : string :=
  let converted :=
    if includes converted "admin." then adminMarker +:+ converted else converted in
  if includes converted "functions." then functionsMarker +:+ converted else converted.

(** [code] is [func.body]: a string for a scanned record, [undefined] for a
    record of the deployed inventory, on which the first [replace] throws. *)
Definition convertFirebaseToSupabase (code : option string) : Result string :=
  match code with
  | None => Throw "Cannot read properties of undefined (reading 'replace')"
  | Some code => Ok (addReviewMarkers (applyRules code))
  end.

(** *** Migration report and log *)

Record MigrationReport : Type := {
  total : nat;
  migrated : nat;
  failed : nat;
  warnings : list string;
  errors : list string
}.

(** The report the constructor of [FunctionMigrator] creates. *)
Definition newReport : MigrationReport :=
  {| total := 0; migrated := 0; failed := 0; warnings := []; errors := [] |}.

Inductive LogType : Type := info | warn | error.

(** [log(message, type)]: the console line is not modelled, the entry of the
    report is. *)
Definition log (message : string) (t : LogType) (r : MigrationReport) : MigrationReport :=
  match t with
  | error => {| total := total r; migrated := migrated r; failed := failed r;
                warnings := warnings r; errors := errors r ++ [message] |}
  | warn => {| total := total r; migrated := migrated r; failed := failed r;
               warnings := warnings r ++ [message]; errors := errors r |}
  | info => r
  end.

Definition setTotal (n : nat) (r : MigrationReport) : MigrationReport :=
  {| total := n; migrated := migrated r; failed := failed r;
     warnings := warnings r; errors := errors r |}.

Definition incrMigrated (r : MigrationReport) : MigrationReport :=
  {| total := total r; migrated := S (migrated r); failed := failed r;
     warnings := warnings r; errors := errors r |}.

Definition incrFailed (r : MigrationReport) : MigrationReport :=
  {| total := total r; migrated := migrated r; failed := S (failed r);
     warnings := warnings r; errors := errors r |}.

(** *** Code Generator *)

(** The own keys of the [templates] table of [generateEdgeFunction], with
    the first line of the template each generator renders, up to the
    function name. *)
Definition templates : list (string * string) :=
  [ ("https", "// Migrated from Firebase Cloud Function: ");
    ("callable", "// Migrated from Firebase Callable Function: ");
    ("firestore", "// Migrated from Firestore trigger: ");
    ("auth", "// Migrated from Auth trigger: ");
    ("storage", "// Migrated from Storage trigger: ");
    ("pubsub", "// Migrated from Pub/Sub function: ");
    ("scheduler", "// Migrated from scheduled function: ") ].

(** The trigger kinds that have a registered template. *)
Definition supportedTypes : list string := map fst templates.

(** What a call of [generateEdgeFunction] returns, as far as
    [createEdgeFunctions] looks at it: a text; another truthy value, an
    object, which [writeFileSync] refuses with an error that says what it
    received; or a falsy value that is no text ([null], [undefined] or
    [false]). *)
Inductive Generated : Type :=
| generatedText (code : string)
| generatedObject (received : string)
| generatedNothing.

(** [!!edgeFunctionCode] *)
Definition truthyGenerated (v : Generated) : bool :=
  match v with
  | generatedText code => truthyString (Some code)
  | generatedObject _ => true
  | generatedNothing => false
  end.

(** [templates] is an object literal, so [templates[key]] also finds the
    properties every object inherits from [Object.prototype].  For each of
    them, what [generator.call(this, cloudFunction)] gives when [this] is the
    migrator and [cloudFunction] a record: [constructor] converts the record
    to an object, which is the record; [toString] and [toLocaleString] give
    the text of the migrator; [valueOf] gives the migrator; the three tests
    give [false], since the migrator has no property of that name and is no
    prototype of the record; [__proto__] is an object, which has no [call];
    the two definers throw for want of a function; the two lookups find
    nothing. *)
Definition objectPrototype : list (string * Result Generated) :=
  [ ("constructor", Ok (generatedObject "an instance of Object"));
    ("toString", Ok (generatedText "[object Object]"));
    ("toLocaleString", Ok (generatedText "[object Object]"));
    ("valueOf", Ok (generatedObject "an instance of FunctionMigrator"));
    ("hasOwnProperty", Ok generatedNothing);
    ("isPrototypeOf", Ok generatedNothing);
    ("propertyIsEnumerable", Ok generatedNothing);
    ("__proto__", Throw "generator.call is not a function");
    ("__defineGetter__", Throw "Object.prototype.__defineGetter__: Expecting function");
    ("__defineSetter__", Throw "Object.prototype.__defineSetter__: Expecting function");
    ("__lookupGetter__", Ok generatedNothing);
    ("__lookupSetter__", Ok generatedNothing) ].

(** The value a table has under one of its own keys. *)
Fixpoint ownProperty {A : Type} (table : list (string * A)) (key : string) : option A :=
  match table with
  | [] => None
  | (k, v) :: table' => if String.eqb k key then Some v else ownProperty table' key
  end.

(** What [templates[key]] finds: one of the seven generators, or an
    inherited property with what calling it gives. *)
Inductive Generator : Type :=
| registered (header : string)
| inherited (called : Result Generated).

(** [templates[key]]; [None] is [undefined]. *)
Definition lookupTemplate (key : string) : option Generator :=
  match ownProperty templates key with
  | Some header => Some (registered header)
  | None =>
      match ownProperty objectPrototype key with
      | Some called => Some (inherited called)
      | None => None
      end
  end.

(** Whether the trigger kind of a record has a registered template. *)
Definition hasTemplate (f : FunctionRecord) : bool :=
  match ownProperty templates (type f) with
  | Some _ => true
  | None => false
  end.

Section Generator.
(** The text of a template after its first line, for the key of the
    template, the record and the rewritten body: imports, guards, the body
    slot, the response, the error handler and the migration notes. *)
Variable boilerplate : string -> FunctionRecord -> string -> string.

(** The seven generators: each rewrites [func.body] and fills its template. *)
Definition generator (key header : string) (func : FunctionRecord) : Result string :=
  bindResult (convertFirebaseToSupabase (body func)) (fun functionBody =>
  Ok (header +:+ name func +:+ boilerplate key func functionBody)).

Definition generateEdgeFunction (cloudFunction : FunctionRecord) (r : MigrationReport)
  : MigrationReport * Result Generated :=
  match lookupTemplate (type cloudFunction) with
  | None =>
      (log ("Unsupported function type: " +:+ type cloudFunction) warn r, Ok generatedNothing)
  | Some (registered header) =>
      (r, bindResult (generator (type cloudFunction) header cloudFunction)
            (fun code => Ok (generatedText code)))
  | Some (inherited called) => (r, called)
  end.

(** Whether [createEdgeFunctions] skips a record: [generateEdgeFunction]
    returns a falsy value for it. *)
Definition skipped (cloudFunction : FunctionRecord) : bool :=
  match snd (generateEdgeFunction cloudFunction newReport) with
  | Ok edgeFunctionCode => negb (truthyGenerated edgeFunctionCode)
  | Throw _ => false
  end.

(** The records of a list that [createEdgeFunctions] skips. *)
Definition skippedCount (functions : list FunctionRecord) : nat :=
  length (List.filter skipped functions).

(** The records of a list that it does not skip. *)
Definition countedRecords (functions : list FunctionRecord) : list FunctionRecord :=
  List.filter (fun f => negb (skipped f)) functions.

End Generator.

(** *** Migration Orchestrator *)

(** The file system as the orchestrator uses it.  A call that can throw
    returns the disk it leaves behind and the message of the error, if any. *)
Class FileSystem (FS : Type) : Type := {
  existsSync : FS -> string -> bool;
  mkdirSync : FS -> string -> FS * option string;
  writeFileSync : FS -> string -> string -> FS * option string
}.

(** [path.join] of a directory and a name.  The path is kept as the text
    [dir/file]; [path.join] also normalises it (segments [.] and [..],
    repeated separators), which changes the text of the directory part and
    not the file it names. *)
Definition pathJoin (dir file : string) : string := dir +:+ "/" +:+ file.

(** The message of the error [writeFileSync] throws for data that is no
    text. *)
Definition invalidData (received : string) : string :=
  let q := String dquote EmptyString in
  "The " +:+ q +:+ "data" +:+ q
  +:+ " argument must be of type string or an instance of Buffer, TypedArray, or DataView."
  +:+ " Received " +:+ received.

Inductive Status : Type := statusMigrated | statusFailed.

(** An entry of [migrationSummary]. *)
Record SummaryEntry : Type := {
  summaryName : string;
  summaryType : string;
  status : Status;
  path : option string;
  errorMessage : option string
}.

Definition entryMigrated (e : SummaryEntry) : bool :=
  match status e with statusMigrated => true | statusFailed => false end.

(** A line of the output of [firebase functions:list], as the loop of
    [parseFunctionsFromFirebase] looks at it: a line that holds no
    [https://] or does not match the name pattern; or a line that matches
    it, with the name it captures and what the pattern of the URL finds in
    the line, nothing ([null]) when every [https://] of the line is followed
    by white space or by the end of the line. *)
Inductive InventoryLine : Type :=
| otherLine
| functionLine (functionName : string) (link : option string).

(** [JSON.stringify(denoConfig, null, 2)] *)
Definition denoConfig : string :=
  let q := String dquote EmptyString in
  "{" +:+ newline +:+ "  " +:+ q +:+ "imports" +:+ q +:+ ": {" +:+ newline
  +:+ "    " +:+ q +:+ "supabase" +:+ q +:+ ": " +:+ q
  +:+ "https://esm.sh/@supabase/supabase-js@2" +:+ q +:+ newline
  +:+ "  }" +:+ newline +:+ "}".

(** What the system around a run provides: the candidate files of a source
    directory with their relative paths and contents (listing the directory
    or reading a file can throw); the lines of the deployed inventory (the
    command can throw); whether the source of a deployed project can be
    fetched; the rendered text of the report, which holds the date of the
    run. *)
Record Environment : Type := {
  sourceFiles : string -> Result (list (string * Result string));
  deployedFunctions : string -> Result (list InventoryLine);
  deployedSource : string -> bool;
  reportText : MigrationReport -> list SummaryEntry -> string
}.

Section Orchestrator.
Context {FS : Type} `{FileSystem FS}.
Variable engine : RegExpEngine.
Variable boilerplate : string -> FunctionRecord -> string -> string.
Variable env : Environment.

(** The state of a migrator during a run. *)
Record Run : Type := {
  report : MigrationReport;
  disk : FS;
  summary : list SummaryEntry
}.

Definition withReport (f : MigrationReport -> MigrationReport) (st : Run) : Run :=
  {| report := f (report st); disk := disk st; summary := summary st |}.

Definition withDisk (d : FS) (st : Run) : Run :=
  {| report := report st; disk := d; summary := summary st |}.

Definition pushSummary (e : SummaryEntry) (st : Run) : Run :=
  {| report := report st; disk := disk st; summary := summary st ++ [e] |}.

(** The [catch] block of the loop of [createEdgeFunctions]. *)
Definition recordFailure (func : FunctionRecord) (message : string) (st : Run) : Run :=
  pushSummary {| summaryName := name func; summaryType := type func;
                 status := statusFailed; path := None; errorMessage := Some message |}
    (withReport incrFailed
       (withReport
          (log ("Failed to migrate function " +:+ name func +:+ ": " +:+ message) error) st)).

(** The file-system steps of the [try] block: the directory of the
    function, [index.ts] and [deno.json].  [writeFileSync] takes a text; for
    any other data it throws before it touches the disk (the loop never
    passes it a falsy value). *)
Definition writeUnit (outputDir : string) (func : FunctionRecord) (edgeFunctionCode : Generated)
  (d : FS) : FS * option string :=
  let functionDir := pathJoin outputDir (name func) in
  let '(d, thrown) :=
    if existsSync d functionDir then (d, None) else mkdirSync d functionDir in
  match thrown with
  | Some e => (d, Some e)
  | None =>
      match edgeFunctionCode with
      | generatedText code =>
          let '(d, thrown) := writeFileSync d (pathJoin functionDir "index.ts") code in
          match thrown with
          | Some e => (d, Some e)
          | None => writeFileSync d (pathJoin functionDir "deno.json") denoConfig
          end
      | generatedObject received => (d, Some (invalidData received))
      | generatedNothing => (d, Some (invalidData "undefined"))
      end
  end.

(** One iteration of the loop of [createEdgeFunctions]. *)
Definition migrateFunction (outputDir : string) (st : Run) (func : FunctionRecord) : Run :=
  let '(r, generated) := generateEdgeFunction boilerplate func (report st) in
  let st := withReport (fun _ => r) st in
  match generated with
  | Throw e => recordFailure func e st
  | Ok edgeFunctionCode =>
      if negb (truthyGenerated edgeFunctionCode) then
        withReport (log ("Skipping function " +:+ name func +:+ " - unsupported type") warn) st
      else
        let '(d, thrown) := writeUnit outputDir func edgeFunctionCode (disk st) in
        let st := withDisk d st in
        match thrown with
        | Some e => recordFailure func e st
        | None =>
            pushSummary {| summaryName := name func; summaryType := type func;
                           status := statusMigrated;
                           path := Some (pathJoin outputDir (name func));
                           errorMessage := None |}
              (withReport incrMigrated st)
        end
  end.

(** [createEdgeFunctions]: the output directory is created outside the
    [try], so an error there ends the call.  [migrationSummary] is a list of
    the call, empty at the start of the loop; the call returns it. *)
Definition createEdgeFunctions (outputDir : string) (functions : list FunctionRecord)
  (st : Run) : Run * option string :=
  let '(d, thrown) :=
    if existsSync (disk st) outputDir then (disk st, None) else mkdirSync (disk st) outputDir in
  let st := withDisk d st in
  match thrown with
  | Some e => (st, Some e)
  | None =>
      let migrationSummary := {| report := report st; disk := disk st; summary := [] |} in
      (fold_left (migrateFunction outputDir) functions migrationSummary, None)
  end.

(** The loop of [parseFunctionsFromSource] over the files: an error while
    reading or scanning a file ends it and keeps the records found so far. *)
Fixpoint scanFiles (files : list (string * Result string)) (functions : list FunctionRecord)
  : list FunctionRecord * option string :=
  match files with
  | [] => (functions, None)
  | (relativePath, Throw e) :: _ => (functions, Some e)
  | (relativePath, Ok content) :: files' =>
      match parseCloudFunctions engine content relativePath with
      | Throw e => (functions, Some e)
      | Ok parsedFunctions => scanFiles files' (functions ++ parsedFunctions)
      end
  end.

Definition parseFunctionsFromSource (sourceDir : string) (r : MigrationReport)
  : list FunctionRecord * MigrationReport :=
  let '(functions, thrown) :=
    match sourceFiles env sourceDir with
    | Throw e => ([], Some e)
    | Ok [] => ([], Some "No JavaScript/TypeScript files found in functions directory")
    | Ok functionFiles => scanFiles functionFiles []
    end in
  match thrown with
  | Some e => (functions, log ("Error parsing functions: " +:+ e) error r)
  | None => (functions, r)
  end.

(** The loop of [parseFunctionsFromFirebase] over the lines: a line that
    matches the name pattern and has no URL makes [line.match(...)[0]] throw,
    which ends the loop and keeps the records pushed so far. *)
Fixpoint inventoryRecords (lines : list InventoryLine) (functions : list FunctionRecord)
  : list FunctionRecord * option string :=
  match lines with
  | [] => (functions, None)
  | otherLine :: lines' => inventoryRecords lines' functions
  | functionLine functionName None :: _ =>
      (functions, Some "Cannot read properties of null (reading '0')")
  | functionLine functionName (Some link) :: lines' =>
      inventoryRecords lines'
        (functions
         ++ [ {| name := functionName; type := "https"; source := "firebase-deployed";
                 raw := None; document := None; trigger := None; schedule := None;
                 body := None; url := Some link |} ])
  end.

(** [parseFunctionsFromFirebase]: an error of the inventory command or of
    the loop goes to the outer [catch], past the attempt to fetch the
    source; a failure of that attempt is a warning. *)
Definition parseFunctionsFromFirebase (projectId : string) (r : MigrationReport)
  : list FunctionRecord * MigrationReport :=
  match deployedFunctions env projectId with
  | Throw e => ([], log ("Error fetching Firebase functions: " +:+ e) error r)
  | Ok lines =>
      let '(functions, thrown) := inventoryRecords lines [] in
      match thrown with
      | Some e => (functions, log ("Error fetching Firebase functions: " +:+ e) error r)
      | None =>
          (functions,
           if deployedSource env projectId then r
           else log "Could not retrieve source code, generating basic templates" warn r)
      end
  end.

(** [generateReport]: one write, which can throw. *)
Definition generateReport (outputDir : string) (st : Run) : Run * option string :=
  let '(d, thrown) :=
    writeFileSync (disk st) (pathJoin outputDir "MIGRATION_REPORT.md")
      (reportText env (report st) (summary st)) in
  (withDisk d st, thrown).

(** The first step of [migrate]: the records of the source directory or of
    the deployed project; [None] when neither option is given.  [sourceDir]
    and [firebaseProject] are the two options of the constructor; an absent
    or empty one is falsy. *)
Definition parseFunctions (sourceDir firebaseProject : option string) (r : MigrationReport)
  : option (list FunctionRecord * MigrationReport) :=
  if truthyString sourceDir
  then Some (parseFunctionsFromSource (default EmptyString sourceDir) r)
  else if truthyString firebaseProject
  then Some (parseFunctionsFromFirebase (default EmptyString firebaseProject) r)
  else None.

(** [migrate]: the state the run ends in, and the error the call is rejected
    with, if any. *)
Definition migrate (sourceDir firebaseProject : option string) (outputDir : string) (st : Run)
  : Run * option string :=
  match parseFunctions sourceDir firebaseProject (report st) with
  | None =>
      (withReport (log "Either --source or --firebase-project must be specified" error) st, None)
  | Some (functions, r) =>
      let st := withReport (fun _ => setTotal (length functions) r) st in
      if Nat.eqb (length functions) 0
      then (withReport (log "No functions found to migrate" warn) st, None)
      else
        let '(st, thrown) := createEdgeFunctions outputDir functions st in
        match thrown with
        | Some e => (st, Some e)
        | None => generateReport outputDir st
        end
  end.

(** A run starts from the report of the constructor and an empty summary. *)
Definition newRun (d : FS) : Run := {| report := newReport; disk := d; summary := [] |}.

End Orchestrator.

(** What the scanner guarantees of a record: a kind with a template, and a
    body. *)
Definition scannedRecord (f : FunctionRecord) : Prop :=
  In (type f) supportedTypes /\ exists b, body f = Some b.

(** A disk on which creating a directory and writing a file never throw. *)
Definition reliableDisk (FS : Type) `{FileSystem FS} : Prop :=
  (forall (d : FS) (p : string), snd (mkdirSync d p) = None) /\
  (forall (d : FS) (p text : string), snd (writeFileSync d p text) = None).

(** *** Template helpers *)

(** The callback of [indentCode]: a line that [trim] leaves non-empty gets
    the indent in front, any other line is kept. *)
Definition indentLine (indent line : string) : string :=
  if negb (isBlank line) then indent +:+ line else line.

Definition indentCode (code : string) (n : nat) : string :=
  joinLines (map (indentLine (spaces n)) (splitLines code)).

(** *** Candidate files *)









End Transpiler.

(** ** The document-tree exporter ([firestore2json.js]) *)

Module Exporter.
Import Js.

(** *** Documents and the store *)

(** The value of a field, as far as the exporter looks at it: it tests
    values for truth and converts them to a string.  A number is given by
    the text its conversion to a string gives and by whether it is falsy
    (zero or [NaN]); [VObject] stands for a map, an array, a timestamp or a
    reference, which is always truthy, and carries the text its conversion
    to a string gives.  [VUndefined] is what reading an absent field
    yields. *)
Inductive Value : Type :=
| VUndefined
| VNull
| VBool (b : bool)
| VNumber (text : string) (falsy : bool)
| VString (s : string)
| VObject (text : string).

#[export] Instance Value_eq_dec : EqDecision Value.
Proof. solve_decision. Defined.

Definition truthy (v : Value) : bool :=
  match v with
  | VUndefined | VNull => false
  | VBool b => b
  | VNumber _ falsy => negb falsy
  | VString s => negb (String.eqb s EmptyString)
  | VObject _ => true
  end.

(** The conversion [v + "/"] applies to its left operand. *)
Definition toString (v : Value) : string :=
  match v with
  | VUndefined => "undefined"
  | VNull => "null"
  | VBool true => "true"
  | VBool false => "false"
  | VNumber text _ => text
  | VString s => s
  | VObject text => text
  end.

(** [doc.field] *)
Definition field (doc : gmap string Value) (key : string) : Value :=
  default VUndefined (doc !! key).

(** A document of the store: its identifier, its fields, and what
    [listCollections()] gives for it, each nested collection with the
    documents its [get()] gives.  Either call can fail. *)
#[warnings="-register-all"]
Inductive FsDoc : Type :=
| Doc (docId : string) (data : gmap string Value)
      (listCollections : Result (list (string * Result (list FsDoc)))).

Definition docId (d : FsDoc) : string := match d with Doc i _ _ => i end.
Definition data (d : FsDoc) : gmap string Value := match d with Doc _ f _ => f end.

(** The store: the documents of each root collection, or the error its
    query is rejected with. *)
Record Firestore : Type := {
  collection : string -> Result (list FsDoc)
}.

(** *** The record store *)

(** The process-wide state of a run: the counters, the records appended
    to each relation, the relations closed by [cleanUp], and the lines of
    [console.error]. *)
Record State : Type := {
  recordCounters : gmap string nat;
  written : list (string * gmap string Value);
  closed : gset string;
  stderr : list string
}.

Definition initialState : State :=
  {| recordCounters := ∅; written := []; closed := ∅; stderr := [] |}.

(** Modelled from the spec: [writeRecord] of the module [utils], which the
    sources do not hold.  The spec has the exporter write deduplicated
    record sets, deduplicate and accumulate the count of each relation, and
    write each relation incrementally: a record its relation holds already
    is neither written nor counted again; any other record is appended to
    its relation at once and the running count of the relation grows by
    one, starting from zero for a new relation. *)
Definition writeRecord (name : string) (doc : gmap string Value) (st : State) : State :=
  if decide ((name, doc) ∈ written st) then st
  else
    {| recordCounters :=
         <[name := S (default 0 (recordCounters st !! name))]> (recordCounters st);
       written := written st ++ [(name, doc)];
       closed := closed st;
       stderr := stderr st |}.

(** Modelled from the spec: [cleanUp] of the module [utils], which the
    sources do not hold.  It finalizes every relation that has a counter. *)
Definition cleanUp (st : State) : State :=
  {| recordCounters := recordCounters st;
     written := written st;
     closed := dom (recordCounters st);
     stderr := stderr st |}.

Definition consoleError (message : string) (st : State) : State :=
  {| recordCounters := recordCounters st;
     written := written st;
     closed := closed st;
     stderr := stderr st ++ [message] |}.

(** *** SubcollectionWalk *)

(** [name.replace(/[^a-zA-Z0-9]/g, '_')] *)
Fixpoint sanitize (s : string) : string :=
  match s with
  | EmptyString => EmptyString
  | String c rest =>
      String (if isLower c || isUpper c || isDigit c then c else "_"%char) (sanitize rest)
  end.

Definition tableNameOf (parentCollectionName subcollectionName : string) (currentDepth : nat)
  : string :=
  let tablePrefix :=
    if Nat.eqb currentDepth 0 then parentCollectionName
    else parentCollectionName +:+ "_" +:+ sanitize subcollectionName in
  if Nat.eqb currentDepth 0 then parentCollectionName +:+ "_" +:+ subcollectionName
  else tablePrefix.

(** What the loop over [snapshot.docs] does to the fields of a nested
    document before writing it. *)
Definition stampNested (parentCollectionName parentDocId subcollectionName : string)
  (currentDepth : nat) (doc : FsDoc) : gmap string Value :=
  let docData := data doc in
  let docData :=
    if negb (truthy (field docData "firestore_id"))
    then <["firestore_id" := VString (docId doc)]> docData else docData in
  let docData := <["parent_collection" := VString parentCollectionName]> docData in
  let docData := <["parent_document_id" := VString parentDocId]> docData in
  <["collection_path" :=
      VString (if Nat.eqb currentDepth 0
               then parentCollectionName +:+ "/" +:+ parentDocId +:+ "/" +:+ subcollectionName
               else toString (field docData "collection_path") +:+ "/" +:+ subcollectionName)]>
    docData.

(** [exportSubcollectionsAsSeparateFiles].  One [try] encloses the listing
    and the whole loop over the nested collections, so an error of either
    call leaves the function through the one [catch].  [snapshot.docs] are
    the first [subcollectionLimit] documents of the collection, which
    [remaining] counts.  The call for a nested document is not awaited: the
    model runs it in place, which keeps the records each relation receives
    and gives up their interleaving with the records of the caller. *)
Fixpoint exportSubcollectionsAsSeparateFiles (docRef : FsDoc)
  (parentCollectionName parentDocId : string)
  (maxDepth currentDepth subcollectionLimit : nat) (st : State) {struct docRef} : State :=
  if maxDepth <=? currentDepth then st
  else
    match docRef with
    | Doc _ _ (Throw e) => consoleError ("Error processing subcollections: " +:+ e) st
    | Doc _ _ (Ok collections) =>
        (fix eachCollection (cs : list (string * Result (list FsDoc))) (st : State) : State :=
           match cs with
           | [] => st
           | (subcollectionName, Throw e) :: _ =>
               consoleError ("Error processing subcollections: " +:+ e) st
           | (subcollectionName, Ok docs) :: cs' =>
               let tableName := tableNameOf parentCollectionName subcollectionName currentDepth in
               eachCollection cs'
                 ((fix eachDoc (remaining : nat) (ds : list FsDoc) (st : State) {struct ds}
                    : State :=
                     match ds, remaining with
                     | doc :: ds', S k =>
                         let st :=
                           writeRecord tableName
                             (stampNested parentCollectionName parentDocId subcollectionName
                                currentDepth doc) st in
                         let st :=
                           if currentDepth + 1 <? maxDepth
                           then exportSubcollectionsAsSeparateFiles doc tableName (docId doc)
                                  maxDepth (currentDepth + 1) subcollectionLimit st
                           else st in
                         eachDoc k ds' st
                     | _, _ => st
                     end) subcollectionLimit docs st)
           end) collections st
    end.

(** *** Paging *)

(** The identity field of a root document: the first of the four candidate
    names whose value is falsy receives the identifier. *)
Definition assignIdentity (fsdocId : string) (doc : gmap string Value) : gmap string Value :=
  if negb (truthy (field doc "firestore_id")) then <["firestore_id" := VString fsdocId]> doc
  else if negb (truthy (field doc "firestoreid")) then <["firestoreid" := VString fsdocId]> doc
  else if negb (truthy (field doc "original_id")) then <["original_id" := VString fsdocId]> doc
  else if negb (truthy (field doc "originalid")) then <["originalid" := VString fsdocId]> doc
  else doc.

Section Paging.
Variable db : Firestore.
(** The optional hook [<collection>_processDocument.js], as a transform of
    the fields. *)
Variable processDocument : option (string -> gmap string Value -> gmap string Value).

(** The loop over [snapshot.docs] in [getBatch]: [acc] is [data]. *)
Fixpoint processDocs (collectionName : string) (includeSubcollections : bool)
  (maxDepth subcollectionLimit : nat) (docs : list FsDoc)
  (acc : list (gmap string Value)) (st : State) : list (gmap string Value) * State :=
  match docs with
  | [] => (acc, st)
  | fsdoc :: docs' =>
      let doc := assignIdentity (docId fsdoc) (data fsdoc) in
      let st :=
        if includeSubcollections
        then exportSubcollectionsAsSeparateFiles fsdoc collectionName (docId fsdoc)
               maxDepth 0 subcollectionLimit st
        else st in
      let doc :=
        match processDocument with
        | Some hook => hook collectionName doc
        | None => doc
        end in
      let st := writeRecord collectionName doc st in
      processDocs collectionName includeSubcollections maxDepth subcollectionLimit docs'
        (acc ++ [doc]) st
  end.

(** The documents a query of the root collection returns.  The query is
    [db.collection(name).limit(batchSize).get()]: it has a limit and no
    offset, so it returns the first [batchSize] documents whatever [offset]
    is. *)
Definition fetch (collectionName : string) (offset batchSize : nat) : Result (list FsDoc) :=
  bindResult (collection db collectionName) (fun docs => Ok (firstn batchSize docs)).

(** [getBatch]: [data], [error] and the state it leaves. *)
Definition getBatch (collectionName : string) (offset batchSize limit : nat)
  (includeSubcollections : bool) (maxDepth subcollectionLimit : nat) (st : State)
  : list (gmap string Value) * option string * State :=
  let st :=
    match recordCounters st !! collectionName with
    | None =>
        {| recordCounters := <[collectionName := 0]> (recordCounters st);
           written := written st; closed := closed st; stderr := stderr st |}
    | Some _ => st
    end in
  let count := default 0 (recordCounters st !! collectionName) in
  if (0 <? limit) && (limit <=? count) then ([], None, st)
  else
    let batchSize := if 0 <? limit then Nat.min batchSize (limit - count) else batchSize in
    match fetch collectionName offset batchSize with
    | Throw e => ([], Some e, st)
    | Ok docs =>
        let '(fetched, st) :=
          processDocs collectionName includeSubcollections maxDepth subcollectionLimit
            docs [] st in
        (fetched, None, st)
    end.

(** [getAll]: the recursion has no bound in the source, so the model counts
    the calls; [None] means the calls allowed were used up before a batch
    came back empty, [Some st] is the state after [cleanUp]. *)
Fixpoint getAll (calls : nat) (collectionName : string) (offset batchSize limit : nat)
  (includeSubcollections : bool) (maxDepth subcollectionLimit : nat) (st : State)
  : option State :=
  match calls with
  | O => None
  | S calls' =>
      let '(fetched, _, st) :=
        getBatch collectionName offset batchSize limit includeSubcollections
          maxDepth subcollectionLimit st in
      if 0 <? length fetched
      then getAll calls' collectionName (offset + length fetched) batchSize limit
             includeSubcollections maxDepth subcollectionLimit st
      else Some (cleanUp st)
  end.

End Paging.

(** *** The loops of the walk, by name *)

(** The two loops of [exportSubcollectionsAsSeparateFiles] as functions of
    their own, with the call for a nested document as the parameter
    [nested]; the lemma [export_loops] below relates them to the walk. *)
Section Loops.
Variable nested : FsDoc -> string -> State -> State.
Variables parentCollectionName parentDocId : string.
Variables maxDepth currentDepth : nat.

Fixpoint eachDocument (subcollectionName tableName : string) (remaining : nat)
  (docs : list FsDoc) (st : State) {struct docs} : State :=
  match docs, remaining with
  | doc :: docs', S k =>
      let st :=
        writeRecord tableName
          (stampNested parentCollectionName parentDocId subcollectionName currentDepth doc)
          st in
      let st := if currentDepth + 1 <? maxDepth then nested doc tableName st else st in
      eachDocument subcollectionName tableName k docs' st
  | _, _ => st
  end.

Fixpoint eachCollection (subcollectionLimit : nat)
  (collections : list (string * Result (list FsDoc))) (st : State) : State :=
  match collections with
  | [] => st
  | (subcollectionName, Throw e) :: _ =>
      consoleError ("Error processing subcollections: " +:+ e) st
  | (subcollectionName, Ok docs) :: collections' =>
      eachCollection subcollectionLimit collections'
        (eachDocument subcollectionName
           (tableNameOf parentCollectionName subcollectionName currentDepth)
           subcollectionLimit docs st)
  end.

End Loops.

(** *** The reach of the walk *)

(** The part of the tree below a document that a walk with [levels] levels
    left and the limit [limit] can read: [levels] levels of nested
    collections, and of each nested collection its first [limit] documents. *)
Fixpoint visible (levels limit : nat) (d : FsDoc) : FsDoc :=
  match levels with
  | O => Doc (docId d) (data d) (Ok [])
  | S levels' =>
      match d with
      | Doc i fields (Throw e) => Doc i fields (Throw e)
      | Doc i fields (Ok collections) =>
          Doc i fields
            (Ok (map (fun c : string * Result (list FsDoc) =>
                        (fst c,
                         match snd c with
                         | Ok docs => Ok (map (visible levels' limit) (firstn limit docs))
                         | Throw e => Throw e
                         end)) collections))
      end
  end.

(** The four candidate names of the identity field, in the order tried. *)
Definition identityFields : list string :=
  ["firestore_id"; "firestoreid"; "original_id"; "originalid"].

(** *** The places of the nested documents *)

Definition listCollections (d : FsDoc) : Result (list (string * Result (list FsDoc))) :=
  match d with Doc _ _ collections => collections end.

(** A nested document where the walk finds it: in the nested collection
    [inCollection], at the depth [atDepth], below a document with the
    identifier [parentDocument] whose relation is [parentRelation]. *)
Record Place : Type := {
  parentRelation : string;
  parentDocument : string;
  inCollection : string;
  atDepth : nat;
  nestedDocument : FsDoc
}.

(** The name of the relation of a nested collection: the relation of the
    parent, an underscore, and the name of the collection, which is
    sanitised below the first level. *)
Definition relationOf (parent name : string) (depth : nat) : string :=
  parent +:+ "_" +:+ (if Nat.eqb depth 0 then name else sanitize name).

(** The nested collections the loop of the walk reaches: those before the
    first one that cannot be read. *)
Fixpoint readable (collections : list (string * Result (list FsDoc)))
  : list (string * list FsDoc) :=
  match collections with
  | (name, Ok docs) :: collections' => (name, docs) :: readable collections'
  | _ => []
  end.

(** The places below a document [docRef] that a walk started for it at
    depth [depth], with the relation [parent] and the identifier [parentId],
    can reach: the first [limit] documents of each nested collection of
    [docRef] the loop reaches, while [depth] is below [maxDepth]; and the
    places below each of these documents, one level deeper, with the
    relation of the nested collection and the identifier of that document as
    the parent. *)
Inductive placeBelow (maxDepth limit : nat)
  : FsDoc -> string -> string -> nat -> Place -> Prop :=
| place_child docRef parent parentId depth collections name docs doc :
    depth < maxDepth ->
    listCollections docRef = Ok collections ->
    In (name, docs) (readable collections) ->
    In doc (firstn limit docs) ->
    placeBelow maxDepth limit docRef parent parentId depth
      {| parentRelation := parent; parentDocument := parentId; inCollection := name;
         atDepth := depth; nestedDocument := doc |}
| place_deeper docRef parent parentId depth collections name docs doc place :
    depth < maxDepth ->
    listCollections docRef = Ok collections ->
    In (name, docs) (readable collections) ->
    In doc (firstn limit docs) ->
    placeBelow maxDepth limit doc (relationOf parent name depth) (docId doc) (depth + 1) place ->
    placeBelow maxDepth limit docRef parent parentId depth place.

(** The four fields the walk sets in a nested record. *)
Definition nestedFields : list string :=
  ["firestore_id"; "parent_collection"; "parent_document_id"; "collection_path"].

(** The record of the nested document at [place], and the relation it
    belongs to: the relation is named after the relation of the parent and
    the collection; [parent_collection] and [parent_document_id] are the
    relation and the identifier of the parent; [collection_path] ends in the
    name of the collection, behind the path of the parent at the first level
    and behind the text of the document's own field of that name below it;
    [firestore_id] is the identifier of the document unless the document has
    a truthy field of that name; every other field is the document's. *)
Definition linked (place : Place) (entry : string * gmap string Value) : Prop :=
  let doc := nestedDocument place in
  let record := snd entry in
  fst entry = relationOf (parentRelation place) (inCollection place) (atDepth place) /\
  record !! "parent_collection" = Some (VString (parentRelation place)) /\
  record !! "parent_document_id" = Some (VString (parentDocument place)) /\
  record !! "collection_path"
  = Some (VString
            (if Nat.eqb (atDepth place) 0
             then parentRelation place +:+ "/" +:+ parentDocument place +:+ "/"
                  +:+ inCollection place
             else toString (field (data doc) "collection_path") +:+ "/"
                  +:+ inCollection place)) /\
  field record "firestore_id"
  = (if truthy (field (data doc) "firestore_id") then field (data doc) "firestore_id"
     else VString (docId doc)) /\
  forall key, ~ In key nestedFields -> record !! key = data doc !! key.

(** What a step adds to the records written: entries with [Q] only. *)
Definition adds (Q : string * gmap string Value -> Prop) (st st' : State) : Prop :=
  exists records, written st' = written st ++ records /\ Forall Q records.

End Exporter.

(** ** Sample inputs *)

Module Samples.
Import Js Transpiler Exporter.

(** A source file with one inline HTTP function, and the matches the
    registry patterns have in it: one, of the pattern [https], at offset 0. *)
Definition helloSource : string :=
  "exports.hello = functions.https.onRequest((req, res) => { res.send('hi'); });".

Definition helloEngine : RegExpEngine :=
  {| exec := fun key _ =>
       if String.eqb key "https"
       then [ {| index := 0; matched := "exports.hello = functions.https.onRequest";
                 group1 := "hello"; group2 := None; group3 := None |} ]
       else [];
     handlerPattern := fun _ _ => Ok None;
     exportPattern := fun _ _ => Ok None;
     asyncFunctionPattern := fun _ => None |}.

Definition helloRecord : FunctionRecord :=
  {| name := "hello"; type := "https"; source := "index.js";
     raw := Some "exports.hello = functions.https.onRequest";
     document := None; trigger := None; schedule := None;
     body := Some "{ res.send('hi'); }"; url := None |}.

(** A disk that keeps what is written, a list of paths with their contents
    (a directory has none), and never fails. *)
#[export] Instance memoryDisk : FileSystem (list (string * option string)) :=
  {| existsSync := fun d p => existsb (fun e => String.eqb (fst e) p) d;
     mkdirSync := fun d p => ((p, None) :: d, None);
     writeFileSync := fun d p text => ((p, Some text) :: d, None) |}.

(** The environment of a run over a directory that holds [index.js] with
    the text [helloSource]. *)
Definition helloEnvironment : Environment :=
  {| sourceFiles := fun _ => Ok [("index.js", Ok helloSource)];
     deployedFunctions :=
       fun _ => Ok [otherLine; functionLine "hello" (Some "https://example.test/hello")];
     deployedSource := fun _ => false;
     reportText := fun _ _ => "# Function Migration Report" |}.

(** A store with one root collection, [users], of one document, which has
    a nested collection [posts] of one document, which has a nested
    collection [comments] of one document. *)
Definition comment1 : FsDoc := Doc "c1" {[ "text" := VString "nice" ]} (Ok []).

Definition post1 : FsDoc :=
  Doc "p1" {[ "title" := VString "hello" ]} (Ok [("comments", Ok [comment1])]).

Definition user1 : FsDoc :=
  Doc "u1" {[ "name" := VString "Ada" ]} (Ok [("posts", Ok [post1])]).

Definition blog : Firestore :=
  {| collection := fun name => if String.eqb name "users" then Ok [user1] else Ok [] |}.

(** A document with three nested collections, the second of which cannot
    be read. *)
Definition like1 : FsDoc := Doc "l1" {[ "by" := VString "u7" ]} (Ok []).

Definition user2 : FsDoc :=
  Doc "u2" {[ "name" := VString "Bo" ]}
    (Ok [ ("drafts", Ok [post1]);
          ("locked", Throw "permission denied");
          ("likes", Ok [like1]) ]).

(** A document that already has a field [firestore_id]. *)
Definition legacyPost : FsDoc :=
  Doc "p9" {[ "firestore_id" := VString "legacy-7" ]} (Ok []).


(** A disk on which the output directory exists already. *)
Definition preparedDisk : list (string * option string) := [("out", None)].

(** A disk that holds nothing and on which nothing can be created. *)
Inductive LockedDisk : Type := lockedDisk.

#[export] Instance lockedFileSystem : FileSystem LockedDisk :=
  {| existsSync := fun _ _ => false;
     mkdirSync := fun d _ => (d, Some "EACCES: permission denied");
     writeFileSync := fun d _ _ => (d, Some "EACCES: permission denied") |}.

(** The environment of a run over a directory of three files, the second
    of which cannot be read. *)
Definition unreadableEnvironment : Environment :=
  {| sourceFiles :=
       fun _ => Ok [ ("index.js", Ok helloSource);
                     ("locked.js", Throw "EACCES: permission denied");
                     ("other.js", Ok helloSource) ];
     deployedFunctions := fun _ => Ok [];
     deployedSource := fun _ => false;
     reportText := fun _ _ => "# Function Migration Report" |}.

(** A record whose kind names no property of the table. *)
Definition cronRecord : FunctionRecord :=
  {| name := "nightly"; type := "cron"; source := "index.js";
     raw := None; document := None; trigger := None; schedule := None;
     body := Some "{ }"; url := None |}.

(** A record whose kind names a property every object inherits. *)
Definition inheritedRecord : FunctionRecord :=
  {| name := "odd"; type := "toString"; source := "index.js";
     raw := None; document := None; trigger := None; schedule := None;
     body := Some "{ }"; url := None |}.

End Samples.

(** * Properties *)

(** ** Strings *)

Module StringFacts.
Import Js.

Lemma string_app_cons (c : ascii) (s t : string) : String c s +:+ t = String c (s +:+ t).
Proof. reflexivity. Qed.

Lemma string_app_nil_l (s : string) : EmptyString +:+ s = s.
Proof. reflexivity. Qed.

Lemma string_app_nil_r (s : string) : s +:+ EmptyString = s.
Proof. induction s as [|c s IH]; [reflexivity|]. rewrite string_app_cons, IH. reflexivity. Qed.

Lemma string_app_assoc (a b c : string) : (a +:+ b) +:+ c = a +:+ (b +:+ c).
Proof.
  induction a as [|x a IH]; [reflexivity|].
  rewrite !string_app_cons, IH. reflexivity.
Qed.


Lemma string_length_app (a b : string) :
  String.length (a +:+ b) = String.length a + String.length b.
Proof.
  induction a as [|x a IH]; [reflexivity|].
  rewrite string_app_cons. simpl. rewrite IH. reflexivity.
Qed.

Lemma countChar_app (c : ascii) (a b : string) :
  countChar c (a +:+ b) = countChar c a + countChar c b.
Proof.
  induction a as [|x a IH]; [reflexivity|].
  rewrite string_app_cons. simpl. rewrite IH. lia.
Qed.


Lemma startsWith_nil (s : string) : startsWith EmptyString s = true.
Proof. destruct s; reflexivity. Qed.

Lemma startsWith_app (pat s : string) : startsWith pat (pat +:+ s) = true.
Proof.
  induction pat as [|c pat IH]; [apply startsWith_nil|].
  rewrite string_app_cons. simpl. rewrite Ascii.eqb_refl. exact IH.
Qed.

Lemma includes_here (s pat : string) : startsWith pat s = true -> includes s pat = true.
Proof.
  destruct s; simpl; intros ->; reflexivity.
Qed.

Lemma includes_app_r (m s pat : string) :
  includes s pat = true -> includes (m +:+ s) pat = true.
Proof.
  intros Hs. induction m as [|c m IH]; [exact Hs|].
  rewrite string_app_cons. simpl. rewrite IH. apply orb_true_r.
Qed.

End StringFacts.

(** ** Body Extractor *)

Module ExtractorFacts.
Import Js Transpiler StringFacts.


(** Without an open brace the loop never sets [inFunction]. *)
Lemma scan_no_open (d : Z) (rest : string) :
  opens rest = 0 -> scanBody d false EmptyString rest = EmptyString.
Proof.
  unfold opens. revert d.
  induction rest as [|c rest IH]; intros d Ho; [reflexivity|].
  simpl in Ho. simpl.
  destruct (Ascii.eqb c "{") eqn:E1; [discriminate|].
  destruct (Ascii.eqb c "}"); [|apply IH; assumption].
  rewrite andb_false_r. apply IH; assumption.
Qed.



(** An unclosed block: the extractor returns the text from the open brace
    to the end, which is not balanced. *)
Example extract_unclosed :
  extractFunctionBody "f = () => { g();" 0 = "{ g();".
Proof. reflexivity. Qed.

(** A close brace before the first open brace leaves the depth negative:
    the loop runs past the matching brace. *)
Example extract_after_stray_close :
  extractFunctionBody "}); exports.f = () => { g(); }; h = () => { }" 0
  = "{ g(); }; h = () => { }".
Proof. reflexivity. Qed.




(** C10: when no open brace occurs at or after the start offset, the Body
    Extractor returns the empty string, the minimal-length filter rejects
    it, and the scanner emits no record for a match whose body is extracted
    at that offset: a match of an inline pattern at the offset, or a match
    of a factory pattern whose handler is found at the offset. *)
Theorem no_open_brace_no_record (content : string) (startIndex : nat) :
  opens (substringFrom startIndex content) = 0 ->
  extractFunctionBody content startIndex = EmptyString /\
  (truthyString (Some (extractFunctionBody content startIndex))
   && keepsBody (extractFunctionBody content startIndex) = false) /\
  (forall engine key filename m,
      index m = startIndex -> modernStyle key = false ->
      recordOfMatch engine key content filename m = Ok None) /\
  (forall engine key filename m hm,
      handlerPattern engine (group1 m) content = Ok (Some hm) ->
      index hm = startIndex -> modernStyle key = true ->
      recordOfMatch engine key content filename m = Ok None).
Proof.
  intros Hno.
  assert (Hbody : extractFunctionBody content startIndex = EmptyString)
    by (apply scan_no_open; exact Hno).
  split; [exact Hbody|]. split; [rewrite Hbody; reflexivity|]. split.
  - intros engine key filename m Hm Hkey. unfold recordOfMatch.
    destruct (recordType key); [|reflexivity].
    rewrite Hkey, Hm, Hbody. reflexivity.
  - intros engine key filename m hm Hh Hm Hkey. unfold recordOfMatch.
    destruct (recordType key); [|reflexivity].
    rewrite Hkey.
    assert (Hname : forall v f, name (setSchedule v f) = name f) by reflexivity.
    assert (Hname' : forall v f, name (setTrigger v f) = name f) by reflexivity.
    assert (Hname'' : forall v f, name (setDocument v f) = name f) by reflexivity.
    unfold extractModernFunctionBody.
    repeat match goal with
           | |- context [if ?c then _ else _] => destruct c
           end;
      rewrite ?Hname, ?Hname', ?Hname''; cbn [name]; rewrite Hh; cbn [bindResult];
      rewrite Hm, Hbody; reflexivity.
Qed.

Lemma no_open_brace_no_record_witness :
  extractFunctionBody "exports.f = functions.https.onRequest(handler);" 0 = EmptyString /\
  (truthyString (Some (extractFunctionBody "exports.f = functions.https.onRequest(handler);" 0))
   && keepsBody (extractFunctionBody "exports.f = functions.https.onRequest(handler);" 0)
   = false) /\
  (forall engine key filename m,
      index m = 0 -> modernStyle key = false ->
      recordOfMatch engine key "exports.f = functions.https.onRequest(handler);" filename m
      = Ok None) /\
  (forall engine key filename m hm,
      handlerPattern engine (group1 m) "exports.f = functions.https.onRequest(handler);"
      = Ok (Some hm) ->
      index hm = 0 -> modernStyle key = true ->
      recordOfMatch engine key "exports.f = functions.https.onRequest(handler);" filename m
      = Ok None).
Proof.
  exact (no_open_brace_no_record "exports.f = functions.https.onRequest(handler);" 0 eq_refl).
Defined.

End ExtractorFacts.

(** ** Function Scanner *)

Module ScannerFacts.
Import Js Transpiler StringFacts Samples.

(** The registry, key by key: the two handler families yield no record,
    every other key yields a type that has a template. *)
Lemma registry_types (key : string) :
  In key patterns ->
  match recordType key with
  | None => key = "handler" \/ key = "async_handler"
  | Some ty => In ty supportedTypes
  end.
Proof.
  unfold patterns. simpl In.
  intros H; repeat (destruct H as [<-|H]; [vm_compute; auto 10|]); destruct H.
Qed.

Lemma setters_keep_type (v : option string) (f : FunctionRecord) :
  type (setDocument v f) = type f /\ type (setTrigger v f) = type f /\
  type (setSchedule v f) = type f /\ type (setBody v f) = type f.
Proof. repeat split. Qed.

(** A record that is pushed carries the type of its key and a body. *)
Lemma recordOfMatch_pushed engine key content filename m f :
  recordOfMatch engine key content filename m = Ok (Some f) ->
  recordType key = Some (type f) /\ exists b, body f = Some b.
Proof.
  unfold recordOfMatch. destruct (recordType key) as [ty|]; [|discriminate].
  match goal with
  | |- bindResult ?e _ = _ -> _ => destruct e as [b|msg]; [|discriminate]
  end.
  cbn [bindResult].
  match goal with
  | |- (if ?c then _ else _) = _ -> _ => destruct c; [|discriminate]
  end.
  intros [= <-]. split; [|exists b; reflexivity].
  repeat match goal with
         | |- context [if ?c then _ else _] => destruct c
         end; reflexivity.
Qed.

Section Invariant.
Variable engine : RegExpEngine.
Variable P : FunctionRecord -> Prop.

Lemma scanMatches_invariant key content filename ms :
  (forall m f, recordOfMatch engine key content filename m = Ok (Some f) -> P f) ->
  forall functions fs,
    Forall P functions ->
    scanMatches engine key content filename ms functions = Ok fs -> Forall P fs.
Proof.
  intros Hstep. induction ms as [|m ms IH]; intros functions fs Hall; simpl.
  - intros [= <-]. exact Hall.
  - destruct (recordOfMatch engine key content filename m) as [[f|]|msg] eqn:E;
      cbn [bindResult]; [| |discriminate].
    + apply IH. apply Forall_app. split; [exact Hall|]. constructor; [|constructor].
      eapply Hstep. exact E.
    + apply IH. exact Hall.
Qed.

Lemma scanPatterns_invariant keys content filename :
  (forall key m f, In key keys ->
     recordOfMatch engine key content filename m = Ok (Some f) -> P f) ->
  forall functions fs,
    Forall P functions ->
    scanPatterns engine keys content filename functions = Ok fs -> Forall P fs.
Proof.
  induction keys as [|key keys IH]; intros Hstep functions fs Hall; simpl.
  - intros [= <-]. exact Hall.
  - destruct (scanMatches engine key content filename (exec engine key content) functions)
      as [functions'|msg] eqn:E; cbn [bindResult]; [|discriminate].
    apply IH.
    + intros k m f Hk. apply Hstep. right. exact Hk.
    + eapply scanMatches_invariant; [|exact Hall|exact E].
      intros m f. apply Hstep. left. reflexivity.
Qed.

End Invariant.

(** A record with a body and a supported type is rendered, not skipped. *)
Lemma supported_record_generates boilerplate f r b :
  In (type f) supportedTypes -> body f = Some b ->
  exists code, generateEdgeFunction boilerplate f r = (r, Ok (generatedText code)).
Proof.
  intros Hty Hb. unfold generateEdgeFunction, lookupTemplate, generator. rewrite Hb.
  unfold supportedTypes, templates in Hty. simpl in Hty.
  repeat (destruct Hty as [<-|Hty]; [eexists; reflexivity|]). destruct Hty.
Qed.

(** C9, as the claim states it: [normalizeType] alone maps every key that
    is not skipped to a type with a template.  It leaves the two scheduled
    factory keys as they are. *)
Lemma normalizeType_not_always_supported :
  ~ (forall key, In key patterns -> recordType key <> None ->
       In (normalizeType key) supportedTypes).
Proof.
  intros H.
  assert (Hin : In "scheduled_factory" patterns) by (unfold patterns; simpl; auto 20).
  specialize (H "scheduled_factory" Hin ltac:(discriminate)).
  vm_compute in H.
  repeat (destruct H as [H|H]; [discriminate|]). exact H.
Qed.

(** C9, amended: every record the scanner emits comes from a registry key
    other than [handler] and [async_handler], and its type, which is the
    value of [normalizeType] on the key or, for the factory and export keys,
    the type set explicitly after it, is one of the seven with a template;
    so [generateEdgeFunction] renders it and never returns [null] for it. *)
Theorem scanned_record_has_template engine content filename fs f :
  parseCloudFunctions engine content filename = Ok fs -> In f fs ->
  (exists key, In key patterns /\ key <> "handler" /\ key <> "async_handler" /\
               recordType key = Some (type f)) /\
  In (type f) supportedTypes /\
  forall boilerplate r, exists code,
    generateEdgeFunction boilerplate f r = (r, Ok (generatedText code)).
Proof.
  intros Hparse Hin.
  assert (Hall : Forall (fun f =>
            (exists key, In key patterns /\ recordType key = Some (type f)) /\
            exists b, body f = Some b) fs).
  { eapply scanPatterns_invariant; [|constructor|exact Hparse].
    intros key m g Hkey Hrec. apply recordOfMatch_pushed in Hrec as [Hty Hb].
    split; [exists key; split; assumption|exact Hb]. }
  rewrite Forall_forall in Hall.
  destruct (Hall f (proj2 (list_elem_of_In _ _) Hin)) as [(key & Hkey & Hty) (b & Hb)].
  assert (Hsup : In (type f) supportedTypes).
  { pose proof (registry_types key Hkey) as Hreg. rewrite Hty in Hreg. exact Hreg. }
  split; [|split; [exact Hsup|]].
  - exists key. repeat split; [exact Hkey| | |exact Hty]; intros ->; discriminate.
  - intros boilerplate r. eapply supported_record_generates; eassumption.
Qed.

Lemma scanned_record_has_template_witness :
  (exists key, In key patterns /\ key <> "handler" /\ key <> "async_handler" /\
               recordType key = Some (type helloRecord)) /\
  In (type helloRecord) supportedTypes /\
  forall boilerplate r, exists code,
    generateEdgeFunction boilerplate helloRecord r = (r, Ok (generatedText code)).
Proof.
  exact (scanned_record_has_template helloEngine helloSource "index.js"
           [helloRecord] helloRecord eq_refl (or_introl eq_refl)).
Defined.

End ScannerFacts.

(** ** API Rewriter *)

Module RewriterFacts.
Import Js Transpiler StringFacts.

Lemma startsWith_countChar (c : ascii) (pat s : string) :
  startsWith pat s = true -> countChar c pat <= countChar c s.
Proof.
  revert s. induction pat as [|a pat IH]; intros s; [simpl; lia|].
  destruct s as [|b s]; [discriminate|]. simpl.
  intros [Hab Hrest]%andb_true_iff. apply Ascii.eqb_eq in Hab as ->.
  specialize (IH s Hrest). lia.
Qed.

Lemma stripPrefix_startsWith (pat s rest : string) :
  stripPrefix pat s = Some rest -> startsWith pat s = true.
Proof.
  revert s. induction pat as [|a pat IH]; intros s; [reflexivity|].
  destruct s as [|b s]; [discriminate|]. simpl.
  destruct (Ascii.eqb a b); [apply IH|discriminate].
Qed.

Lemma includes_countChar (c : ascii) (s pat : string) :
  includes s pat = true -> countChar c pat <= countChar c s.
Proof.
  induction s as [|a s IH]; simpl.
  - apply startsWith_countChar.
  - intros [H|H]%orb_true_iff.
    + apply (startsWith_countChar c) in H. exact H.
    + specialize (IH H). lia.
Qed.

(** A rule that matches nowhere in a text leaves it as it is. *)
Lemma replace_no_match (rule : Rule) (P : string -> Prop) :
  (forall c s, P (String c s) -> P s) ->
  (forall s, P s -> rule s = None) ->
  forall s, P s -> replace rule s = s.
Proof.
  intros Htail Hnone. unfold replace.
  induction s as [|c s IH]; intros Hs; [reflexivity|].
  simpl. rewrite (Hnone _ Hs). f_equal. apply IH. eapply Htail. exact Hs.
Qed.

Lemma dotFree_tail (c : ascii) (s : string) : dotFree (String c s) -> dotFree s.
Proof. unfold dotFree. simpl. lia. Qed.

Lemma literal_needs_dot (pat replacement s : string) :
  0 < countChar "." pat -> dotFree s -> literal pat replacement s = None.
Proof.
  unfold literal, dotFree. intros Hpat Hs.
  destruct (startsWith pat s) eqn:E; [|reflexivity].
  apply (startsWith_countChar ".") in E. lia.
Qed.

Lemma prefixed_needs_dot (pat s rest : string) :
  0 < countChar "." pat -> dotFree s -> stripPrefix pat s = Some rest -> False.
Proof.
  unfold dotFree. intros Hpat Hs E.
  apply stripPrefix_startsWith, (startsWith_countChar ".") in E. lia.
Qed.

(** Every pattern of the rewriter holds a dot. *)
Lemma rules_need_dot :
  Forall (fun rule : Rule => forall s, dotFree s -> rule s = None) rewriteRules.
Proof.
  unfold rewriteRules.
  repeat match goal with
         | |- Forall _ (literal _ _ :: _) =>
             constructor; [intros s Hs; apply literal_needs_dot; [vm_compute; lia|exact Hs]|]
         | |- Forall _ (_ :: _) =>
             constructor;
             [intros s Hs;
              cbv beta delta [collectionRule docRule statusRule];
              match goal with
              | |- match stripPrefix ?pat s with _ => _ end = None =>
                  destruct (stripPrefix pat s) eqn:E; [|reflexivity];
                  exfalso; eapply (prefixed_needs_dot pat);
                  [vm_compute; lia|exact Hs|exact E]
              end|]
         end.
  constructor.
Qed.

Lemma applyRules_dotFree (B : string) : dotFree B -> applyRules B = B.
Proof.
  intros HB. unfold applyRules.
  pose proof rules_need_dot as Hrules. revert Hrules.
  generalize rewriteRules as rules.
  induction rules as [|rule rules IH]; intros Hrules; [reflexivity|].
  inversion Hrules as [|? ? Hrule Hrest]; subst. simpl.
  rewrite (replace_no_match rule dotFree dotFree_tail Hrule B HB).
  apply IH. exact Hrest.
Qed.

Lemma markers_dotFree (B : string) : dotFree B -> addReviewMarkers B = B.
Proof.
  intros HB. unfold addReviewMarkers, dotFree in *.
  destruct (includes B "admin.") eqn:E1.
  { apply (includes_countChar ".") in E1.
    change (countChar "." "admin.") with 1 in E1. lia. }
  destruct (includes B "functions.") eqn:E2.
  { apply (includes_countChar ".") in E2.
    change (countChar "." "functions.") with 1 in E2. lia. }
  reflexivity.
Qed.

(** C6: on every text the rewriter returns a text: no replacement and no
    scan of it can throw, and each is a structural recursion over the text,
    so it ends.  The empty text is returned empty, and a text in which no
    pattern can match, because it holds no dot, is returned as it is. *)
Theorem rewrite_total (B : string) :
  exists out, convertFirebaseToSupabase (Some B) = Ok out /\
    (B = EmptyString -> out = EmptyString) /\
    (countChar "." B = 0 -> out = B).
Proof.
  exists (addReviewMarkers (applyRules B)). split; [reflexivity|]. split.
  - intros ->. reflexivity.
  - intros HB. rewrite (applyRules_dotFree B HB). apply markers_dotFree. exact HB.
Qed.

(** What the rewriter needs is a text: on the absent body of a record of
    the deployed inventory the first replacement throws. *)
Example rewrite_undefined :
  convertFirebaseToSupabase None
  = Throw "Cannot read properties of undefined (reading 'replace')".
Proof. reflexivity. Qed.

(** The rules in action, in the order of the source. *)
Example rewrite_sample :
  convertFirebaseToSupabase
    (Some "const d = await admin.firestore().collection('users').doc('u-1').get(); res.status(200).send(d.data());")
  = Ok "const d = await supabaseClient.from('users').select().eq('id', 'u-1').single(); return new Response(200, d);".
Proof. reflexivity. Qed.

(** C7: when the text left by the rules still holds a token [admin.] or
    [functions.], the output is that text behind a review marker (one of the
    two comments, or both), so it starts with the marker and every call the
    rules left in the text is still there, verbatim. *)
Theorem residual_call_is_marked (B : string) :
  includes (applyRules B) "admin." || includes (applyRules B) "functions." = true ->
  exists marker,
    (marker = adminMarker \/ marker = functionsMarker \/
     marker = functionsMarker +:+ adminMarker) /\
    convertFirebaseToSupabase (Some B) = Ok (marker +:+ applyRules B) /\
    startsWith "// TODO: Review Firebase " (marker +:+ applyRules B) = true /\
    forall call, includes (applyRules B) call = true ->
                 includes (marker +:+ applyRules B) call = true.
Proof.
  intros Hres. unfold convertFirebaseToSupabase, addReviewMarkers.
  destruct (includes (applyRules B) "admin.") eqn:Eadmin.
  - destruct (includes (adminMarker +:+ applyRules B) "functions.") eqn:Efun.
    + exists (functionsMarker +:+ adminMarker). split; [auto|]. split; [|split].
      * rewrite string_app_assoc. reflexivity.
      * reflexivity.
      * intros call. apply includes_app_r.
    + exists adminMarker. split; [auto|]. split; [reflexivity|]. split; [reflexivity|].
      intros call. apply includes_app_r.
  - simpl in Hres. rewrite Hres.
    exists functionsMarker. split; [auto|]. split; [reflexivity|]. split; [reflexivity|].
    intros call. apply includes_app_r.
Qed.

Lemma residual_call_is_marked_witness :
  exists marker,
    (marker = adminMarker \/ marker = functionsMarker \/
     marker = functionsMarker +:+ adminMarker) /\
    convertFirebaseToSupabase (Some "await admin.messaging().send(message);")
    = Ok (marker +:+ applyRules "await admin.messaging().send(message);") /\
    startsWith "// TODO: Review Firebase "
      (marker +:+ applyRules "await admin.messaging().send(message);") = true /\
    forall call, includes (applyRules "await admin.messaging().send(message);") call = true ->
                 includes (marker +:+ applyRules "await admin.messaging().send(message);") call
                 = true.
Proof.
  exact (residual_call_is_marked "await admin.messaging().send(message);" eq_refl).
Defined.

End RewriterFacts.

(** ** Migration Orchestrator *)

Module OrchestratorFacts.
Import Js Transpiler StringFacts Samples.

Section Counts.
Context {FS : Type} `{FileSystem FS}.
Variable engine : RegExpEngine.
Variable boilerplate : string -> FunctionRecord -> string -> string.
Variable env : Environment.

(** Every header of the table is a non-empty text, so rendered code is truthy. *)
Lemma template_header_nonempty (ty header : string) :
  ownProperty templates ty = Some header -> exists c rest, header = String c rest.
Proof.
  unfold templates. simpl.
  repeat match goal with
         | |- (if ?c then _ else _) = _ -> _ =>
             destruct c; [intros [= <-]; eexists _, _; reflexivity|]
         end.
  discriminate.
Qed.

Lemma lookupTemplate_registered (ty header : string) :
  lookupTemplate ty = Some (registered header) <-> ownProperty templates ty = Some header.
Proof.
  unfold lookupTemplate. destruct (ownProperty templates ty) as [h|].
  - split; intros [= ->]; reflexivity.
  - destruct (ownProperty objectPrototype ty); split; discriminate.
Qed.

(** What [generateEdgeFunction] returns does not depend on the report it
    logs to, and it leaves the counters and the errors of the report alone. *)
Lemma generateEdgeFunction_report (f : FunctionRecord) (r : MigrationReport) :
  let result := generateEdgeFunction boilerplate f r in
  snd result = snd (generateEdgeFunction boilerplate f newReport) /\
  total (fst result) = total r /\ migrated (fst result) = migrated r /\
  failed (fst result) = failed r /\ errors (fst result) = errors r.
Proof.
  unfold generateEdgeFunction.
  destruct (lookupTemplate (type f)) as [[header|called]|]; cbn; auto.
Qed.

(** A record whose kind has a registered template is never skipped: its
    generator returns a text that begins with the header, or throws. *)
Lemma registered_not_skipped (f : FunctionRecord) :
  hasTemplate f = true -> skipped boilerplate f = false.
Proof.
  unfold hasTemplate, skipped, generateEdgeFunction.
  destruct (ownProperty templates (type f)) as [header|] eqn:Eown; [intros _|discriminate].
  rewrite (proj2 (lookupTemplate_registered _ _) Eown).
  apply template_header_nonempty in Eown as (c & rest & ->).
  unfold generator. destruct (convertFirebaseToSupabase (body f)) as [converted|msg];
    [|reflexivity].
  cbn [bindResult snd]. rewrite string_app_cons. reflexivity.
Qed.

(** One record.  A record that is skipped increments neither counter, adds
    nothing to the summary and leaves the warning of the skip, behind the
    warning of [generateEdgeFunction] when the kind names no property at all.
    Any other record adds one entry with its name and kind to the summary
    and increments the counter of the status of that entry. *)
Lemma migrateFunction_step (outputDir : string) (st : Run) (func : FunctionRecord) :
  let st' := migrateFunction boilerplate outputDir st func in
  total (report st') = total (report st) /\
  if skipped boilerplate func
  then migrated (report st') = migrated (report st) /\
       failed (report st') = failed (report st) /\
       summary st' = summary st /\
       warnings (report st')
       = warnings (report st)
         ++ match lookupTemplate (type func) with
            | None => ["Unsupported function type: " +:+ type func]
            | Some _ => []
            end
         ++ ["Skipping function " +:+ name func +:+ " - unsupported type"]
  else exists entry,
         summary st' = summary st ++ [entry] /\
         summaryName entry = name func /\ summaryType entry = type func /\
         if entryMigrated entry
         then migrated (report st') = S (migrated (report st)) /\
              failed (report st') = failed (report st)
         else migrated (report st') = migrated (report st) /\
              failed (report st') = S (failed (report st)).
Proof.
  unfold migrateFunction, skipped, generateEdgeFunction.
  destruct (lookupTemplate (type func)) as [[header|[generated|e]]|] eqn:Elook; cbn [fst snd].
  - apply lookupTemplate_registered, template_header_nonempty in Elook as (c & rest & ->).
    unfold generator.
    destruct (convertFirebaseToSupabase (body func)) as [converted|msg]; cbn [bindResult].
    + rewrite string_app_cons. cbn [truthyGenerated truthyString negb].
      match goal with
      | |- context [writeUnit outputDir func ?g ?d0] =>
          destruct (writeUnit outputDir func g d0) as [d [e|]]
      end; cbn;
        (split; [reflexivity|]); eexists; (split; [reflexivity|]); cbn; auto.
    + cbn. split; [reflexivity|]. eexists. split; [reflexivity|]. cbn. auto.
  - destruct (negb (truthyGenerated generated)) eqn:Etruthy.
    + cbn. repeat split; reflexivity.
    + match goal with
      | |- context [writeUnit outputDir func ?g ?d0] =>
          destruct (writeUnit outputDir func g d0) as [d [e|]]
      end; cbn;
        (split; [reflexivity|]); eexists; (split; [reflexivity|]); cbn; auto.
  - cbn. split; [reflexivity|]. eexists. split; [reflexivity|]. cbn. auto.
  - cbn. repeat split. rewrite <- List.app_assoc. reflexivity.
Qed.

Lemma filter_split_length {A : Type} (p : A -> bool) (l : list A) :
  length (List.filter p l) + length (List.filter (fun x => negb (p x)) l) = length l.
Proof. induction l as [|x l IH]; [reflexivity|]. cbn. destruct (p x); cbn; lia. Qed.

(** The loop of [createEdgeFunctions]: the summary gains one entry for
    each record that is not skipped, in the order of the records and with
    the name and kind of the record, and each counter grows by the number of
    the entries of its status. *)
Lemma loop_accounts (outputDir : string) (functions : list FunctionRecord) :
  forall st : Run,
    let st' := fold_left (migrateFunction boilerplate outputDir) functions st in
    total (report st') = total (report st) /\
    exists entries,
      summary st' = summary st ++ entries /\
      map (fun e => (summaryName e, summaryType e)) entries
      = map (fun f => (name f, type f)) (countedRecords boilerplate functions) /\
      migrated (report st')
      = migrated (report st) + length (List.filter entryMigrated entries) /\
      failed (report st')
      = failed (report st) + length (List.filter (fun e => negb (entryMigrated e)) entries).
Proof.
  induction functions as [|func functions IH]; intros st; cbn [fold_left].
  - split; [reflexivity|]. exists []. cbn. rewrite app_nil_r. repeat split; lia.
  - destruct (IH (migrateFunction boilerplate outputDir st func))
      as (Htot & entries & Hsum & Hmap & Hm & Hf).
    pose proof (migrateFunction_step outputDir st func) as [Htot1 Hstep].
    cbv zeta in *. split; [congruence|].
    unfold countedRecords in *. cbn [List.filter].
    destruct (skipped boilerplate func); cbn [negb].
    + destruct Hstep as (Hm1 & Hf1 & Hs1 & _). exists entries.
      rewrite Hsum, Hs1, Hm, Hf, Hm1, Hf1. repeat split; auto.
    + destruct Hstep as (entry & Hs1 & Hn & Ht & Hcount). exists (entry :: entries).
      rewrite Hsum, Hs1, <- List.app_assoc. cbn [map List.filter app]. rewrite Hn, Ht.
      split; [reflexivity|]. split; [f_equal; exact Hmap|].
      destruct (entryMigrated entry); cbn [negb length]; destruct Hcount as [Hm1 Hf1]; lia.
Qed.

(** In numbers: every record is counted once, as migrated, failed or
    skipped. *)
Lemma loop_counts (outputDir : string) (functions : list FunctionRecord) :
  forall st : Run,
    let st' := fold_left (migrateFunction boilerplate outputDir) functions st in
    total (report st') = total (report st) /\
    migrated (report st') + failed (report st') + skippedCount boilerplate functions
    = migrated (report st) + failed (report st) + length functions /\
    length (summary st') + migrated (report st) + failed (report st)
    = length (summary st) + migrated (report st') + failed (report st').
Proof.
  intros st.
  destruct (loop_accounts outputDir functions st) as (Htot & entries & Hsum & Hmap & Hm & Hf).
  cbv zeta in *. split; [exact Htot|].
  apply (f_equal (@length _)) in Hmap. rewrite !length_map in Hmap.
  pose proof (filter_split_length entryMigrated entries) as Hentries.
  pose proof (filter_split_length (skipped boilerplate) functions) as Hrecords.
  unfold skippedCount, countedRecords in *. rewrite Hsum, length_app. lia.
Qed.

Lemma createEdgeFunctions_counts (outputDir : string) (functions : list FunctionRecord)
  (st : Run) :
  let st' := fst (createEdgeFunctions boilerplate outputDir functions st) in
  total (report st') = total (report st) /\
  migrated (report st') + failed (report st')
  <= migrated (report st) + failed (report st) + length functions.
Proof.
  unfold createEdgeFunctions.
  destruct (if existsSync (disk st) outputDir then _ else _) as [d [e|]]; cbn.
  - lia.
  - pose proof (loop_counts outputDir functions
                  {| report := report st; disk := d; summary := [] |}) as (Htot & Hsum & _).
    cbn in *. lia.
Qed.

(** When [createEdgeFunctions] returns, it ran the loop. *)
Lemma createEdgeFunctions_returns (outputDir : string) (functions : list FunctionRecord)
  (st : Run) :
  snd (createEdgeFunctions boilerplate outputDir functions st) = None ->
  exists d,
    fst (createEdgeFunctions boilerplate outputDir functions st)
    = fold_left (migrateFunction boilerplate outputDir) functions
        {| report := report st; disk := d; summary := [] |}.
Proof.
  unfold createEdgeFunctions.
  destruct (if existsSync (disk st) outputDir then _ else _) as [d [e|]]; cbn;
    [discriminate|]. intros _. exists d. reflexivity.
Qed.

(** [generateReport] leaves the report and the summary alone. *)
Lemma generateReport_report (outputDir : string) (st : Run) :
  report (fst (generateReport env outputDir st)) = report st /\
  summary (fst (generateReport env outputDir st)) = summary st.
Proof. unfold generateReport. destruct (writeFileSync _ _ _). split; reflexivity. Qed.

(** *** The records of a run *)

Lemma parsed_records_scanned (content filename : string) (fs : list FunctionRecord) :
  parseCloudFunctions engine content filename = Ok fs -> Forall scannedRecord fs.
Proof.
  intros Hparse.
  eapply ScannerFacts.scanPatterns_invariant; [|constructor|exact Hparse].
  intros key m g Hkey Hrec. unfold scannedRecord.
  apply ScannerFacts.recordOfMatch_pushed in Hrec as [Hty Hb].
  split; [|exact Hb].
  pose proof (ScannerFacts.registry_types key Hkey) as Hreg.
  rewrite Hty in Hreg. exact Hreg.
Qed.

Lemma scanFiles_scanned (files : list (string * Result string)) :
  forall functions, Forall scannedRecord functions ->
    Forall scannedRecord (fst (scanFiles engine files functions)).
Proof.
  induction files as [|[relativePath [content|e]] files IH]; intros functions Hall; simpl;
    [exact Hall| |exact Hall].
  destruct (parseCloudFunctions engine content relativePath) as [parsed|e] eqn:Eparse;
    [|exact Hall].
  apply IH. apply Forall_app. split; [exact Hall|].
  eapply parsed_records_scanned. exact Eparse.
Qed.

Lemma parseFunctionsFromSource_scanned (sourceDir : string) (r : MigrationReport) :
  Forall scannedRecord (fst (parseFunctionsFromSource engine env sourceDir r)) /\
  migrated (snd (parseFunctionsFromSource engine env sourceDir r)) = migrated r /\
  failed (snd (parseFunctionsFromSource engine env sourceDir r)) = failed r.
Proof.
  unfold parseFunctionsFromSource.
  destruct (sourceFiles env sourceDir) as [[|file files]|e].
  - cbn. auto.
  - pose proof (scanFiles_scanned (file :: files) [] ltac:(constructor)) as Hall.
    destruct (scanFiles engine (file :: files) []) as [functions [e|]]; cbn in *; auto.
  - cbn. auto.
Qed.

Lemma scanned_has_template (f : FunctionRecord) : scannedRecord f -> hasTemplate f = true.
Proof.
  intros [Hty _]. unfold hasTemplate. unfold supportedTypes, templates in Hty.
  simpl in Hty.
  repeat (destruct Hty as [<-|Hty]; [reflexivity|]). destruct Hty.
Qed.

(** The records of the deployed inventory: the kind [https], no body. *)
Lemma inventoryRecords_bodyless (lines : list InventoryLine) :
  forall functions,
    Forall (fun f => body f = None /\ hasTemplate f = true) functions ->
    Forall (fun f => body f = None /\ hasTemplate f = true)
      (fst (inventoryRecords lines functions)).
Proof.
  induction lines as [|[|functionName [link|]] lines IH]; intros functions Hall;
    cbn [inventoryRecords fst]; [exact Hall|apply IH; exact Hall| |exact Hall].
  apply IH. apply Forall_app. split; [exact Hall|].
  constructor; [split; reflexivity|constructor].
Qed.

Lemma parseFunctionsFromFirebase_bodyless (projectId : string) (r : MigrationReport) :
  Forall (fun f => body f = None /\ hasTemplate f = true)
    (fst (parseFunctionsFromFirebase env projectId r)) /\
  migrated (snd (parseFunctionsFromFirebase env projectId r)) = migrated r /\
  failed (snd (parseFunctionsFromFirebase env projectId r)) = failed r.
Proof.
  unfold parseFunctionsFromFirebase.
  destruct (deployedFunctions env projectId) as [lines|e]; [|cbn; auto].
  pose proof (inventoryRecords_bodyless lines [] ltac:(constructor)) as Hall.
  destruct (inventoryRecords lines []) as [functions [e|]]; cbn [fst snd] in *;
    [|destruct (deployedSource env projectId)]; cbn; auto.
Qed.

(** The parse step leaves the counters of the report alone, and every
    record it returns has a kind with a registered template. *)
Lemma parseFunctions_records (sourceDir firebaseProject : option string)
  (r : MigrationReport) (functions : list FunctionRecord) (r' : MigrationReport) :
  parseFunctions engine env sourceDir firebaseProject r = Some (functions, r') ->
  migrated r' = migrated r /\ failed r' = failed r /\
  Forall (fun f => hasTemplate f = true) functions.
Proof.
  unfold parseFunctions. destruct (truthyString sourceDir).
  - pose proof (parseFunctionsFromSource_scanned (default EmptyString sourceDir) r)
      as (Hall & Hm & Hf).
    intros [= E]. rewrite E in Hall, Hm, Hf. cbn [fst snd] in *.
    repeat split; [exact Hm|exact Hf|].
    eapply Forall_impl; [exact Hall|]. intros f. apply scanned_has_template.
  - destruct (truthyString firebaseProject); [|discriminate].
    pose proof (parseFunctionsFromFirebase_bodyless (default EmptyString firebaseProject) r)
      as (Hall & Hm & Hf).
    intros [= E]. rewrite E in Hall, Hm, Hf. cbn [fst snd] in *.
    repeat split; [exact Hm|exact Hf|].
    eapply Forall_impl; [exact Hall|]. intros f [_ Ht]. exact Ht.
Qed.

Lemma countedRecords_all (functions : list FunctionRecord) :
  Forall (fun f => hasTemplate f = true) functions ->
  countedRecords boilerplate functions = functions.
Proof.
  unfold countedRecords. induction 1 as [|f functions Hf _ IH]; [reflexivity|].
  cbn [List.filter]. rewrite (registered_not_skipped f Hf). cbn [negb]. f_equal. exact IH.
Qed.

(** C8, amended: in the report of every run the migrated and failed counts
    add up to at most the total, which is the number of records the parse
    step aggregated.  Every aggregated record has a kind with a registered
    template, so none is skipped.  When the output directory exists or can
    be created, each aggregated record has its one entry in the summary, in
    order and under its name and kind, and has incremented the counter of the
    status of that entry, so the two counts add up to the total.  When the
    directory cannot be created, the run is rejected before the first record
    and both counts stay at zero. *)
Theorem report_counts_bounded
  (sourceDir firebaseProject : option string) (outputDir : string) (d : FS) :
  let run := migrate engine boilerplate env sourceDir firebaseProject outputDir (newRun d) in
  let final := report (fst run) in
  migrated final + failed final <= total final /\
  match parseFunctions engine env sourceDir firebaseProject newReport with
  | None => total final = 0 /\ migrated final = 0 /\ failed final = 0
  | Some (functions, _) =>
      total final = length functions /\
      Forall (fun f => hasTemplate f = true /\ skipped boilerplate f = false) functions /\
      match (if existsSync d outputDir then None else snd (mkdirSync d outputDir)) with
      | None =>
          map (fun e => (summaryName e, summaryType e)) (summary (fst run))
          = map (fun f => (name f, type f)) functions /\
          migrated final = length (List.filter entryMigrated (summary (fst run))) /\
          failed final
          = length (List.filter (fun e => negb (entryMigrated e)) (summary (fst run))) /\
          migrated final + failed final = total final
      | Some e =>
          migrated final = 0 /\ failed final = 0 /\ summary (fst run) = [] /\
          (functions <> [] -> snd run = Some e)
      end
  end.
Proof.
  cbv zeta. unfold migrate. cbn [report newRun].
  destruct (parseFunctions engine env sourceDir firebaseProject newReport)
    as [[functions r]|] eqn:Eparse; [|cbn; repeat split; lia].
  apply parseFunctions_records in Eparse as (Hm & Hf & Hall). cbn in Hm, Hf.
  assert (Hnone : Forall (fun f => hasTemplate f = true /\ skipped boilerplate f = false)
                    functions).
  { eapply Forall_impl; [exact Hall|]. intros f Ht. split; [exact Ht|].
    apply registered_not_skipped. exact Ht. }
  destruct (length functions =? 0)%nat eqn:Elen.
  { apply Nat.eqb_eq in Elen. destruct functions; [|discriminate]. cbn. rewrite Hm, Hf.
    split; [lia|]. split; [reflexivity|]. split; [constructor|].
    destruct (if existsSync d outputDir then None else snd (mkdirSync d outputDir));
      repeat split; congruence. }
  unfold createEdgeFunctions. cbn [disk newRun withReport].
  pose (st0 := {| report := setTotal (length functions) r; disk := d; summary := [] |}).
  assert (Hloop : forall d',
             let st' := fold_left (migrateFunction boilerplate outputDir) functions
                          (withDisk d' st0) in
             total (report st') = length functions /\
             map (fun e => (summaryName e, summaryType e)) (summary st')
             = map (fun f => (name f, type f)) functions /\
             migrated (report st') = length (List.filter entryMigrated (summary st')) /\
             failed (report st')
             = length (List.filter (fun e => negb (entryMigrated e)) (summary st'))).
  { intros d'.
    destruct (loop_accounts outputDir functions (withDisk d' st0))
      as (Htot & entries & Hsum & Hmap & Hm1 & Hf1).
    cbv zeta in *. cbn in Htot, Hsum, Hm1, Hf1. rewrite Hm in Hm1. rewrite Hf in Hf1.
    rewrite (countedRecords_all functions Hall) in Hmap.
    rewrite Hsum, Htot, Hm1, Hf1. repeat split; cbn; auto. }
  assert (Hdone : forall d',
             let st' := fst (generateReport env outputDir
                               (fold_left (migrateFunction boilerplate outputDir) functions
                                  (withDisk d' st0))) in
             migrated (report st') + failed (report st') <= total (report st') /\
             total (report st') = length functions /\
             map (fun e => (summaryName e, summaryType e)) (summary st')
             = map (fun f => (name f, type f)) functions /\
             migrated (report st') = length (List.filter entryMigrated (summary st')) /\
             failed (report st')
             = length (List.filter (fun e => negb (entryMigrated e)) (summary st')) /\
             migrated (report st') + failed (report st') = total (report st')).
  { intros d'. destruct (Hloop d') as (Htot & Hmap & Hm1 & Hf1). cbv zeta in *.
    destruct (generateReport_report outputDir
                (fold_left (migrateFunction boilerplate outputDir) functions
                   (withDisk d' st0))) as [-> ->].
    assert (Hsum : migrated (report (fold_left (migrateFunction boilerplate outputDir)
                                       functions (withDisk d' st0)))
                   + failed (report (fold_left (migrateFunction boilerplate outputDir)
                                       functions (withDisk d' st0)))
                   = length functions).
    { rewrite Hm1, Hf1, filter_split_length.
      apply (f_equal (@length _)) in Hmap. rewrite !length_map in Hmap. exact Hmap. }
    rewrite Htot. repeat split; try assumption; lia. }
  destruct (existsSync d outputDir).
  - destruct (Hdone d) as (Hle & Htot & Hrest). cbv zeta in *.
    match goal with
    | |- context [generateReport env outputDir ?st1] =>
        change st1 with (fold_left (migrateFunction boilerplate outputDir) functions
                           (withDisk d st0));
        destruct (generateReport env outputDir
                    (fold_left (migrateFunction boilerplate outputDir) functions
                       (withDisk d st0))) as [st2 thrown]
    end.
    cbn [fst snd] in *. repeat split; tauto.
  - destruct (mkdirSync d outputDir) as [d' [e|]]; cbn [fst snd].
    + cbn. rewrite Hm, Hf. repeat split; try lia; try exact Hnone; auto.
    + destruct (Hdone d') as (Hle & Htot & Hrest). cbv zeta in *.
      match goal with
      | |- context [generateReport env outputDir ?st1] =>
          change st1 with (fold_left (migrateFunction boilerplate outputDir) functions
                             (withDisk d' st0));
          destruct (generateReport env outputDir
                      (fold_left (migrateFunction boilerplate outputDir) functions
                         (withDisk d' st0))) as [st2 thrown]
      end.
      cbn [fst snd] in *. repeat split; tauto.
Qed.

End Counts.

(** C8, as the claim states it: in every run each aggregated record
    increments exactly one of the two counters unless its kind has no
    registered template.  On a disk where the output directory cannot be
    created the run has one record, of a kind with a template, and both
    counters are zero. *)
Lemma run_records_not_always_counted :
  ~ (forall (FS : Type) (fs : FileSystem FS) (engine : RegExpEngine)
       (boilerplate : string -> FunctionRecord -> string -> string) (env : Environment)
       (sourceDir firebaseProject : option string) (outputDir : string) (d : FS)
       (functions : list FunctionRecord) (r : MigrationReport),
       parseFunctions engine env sourceDir firebaseProject newReport = Some (functions, r) ->
       let final :=
         report (fst (migrate engine boilerplate env sourceDir firebaseProject outputDir
                        (newRun d))) in
       migrated final + failed final = length (List.filter hasTemplate functions)).
Proof.
  intros Hclaim.
  specialize (Hclaim LockedDisk lockedFileSystem helloEngine (fun _ _ text => text)
                helloEnvironment (Some "functions") None "out" lockedDisk
                [helloRecord] newReport eq_refl).
  vm_compute in Hclaim. discriminate.
Qed.

(** A run over the sample directory: one record, migrated. *)
Example migrate_hello :
  let final :=
    report (fst (migrate helloEngine (fun _ _ text => text) helloEnvironment
                   (Some "functions") None "out" (newRun ([] : list (string * option string))))) in
  (total final, migrated final, failed final) = (1, 1, 0).
Proof. reflexivity. Qed.

(** A run over the deployed inventory: the record has no body, rewriting
    it throws, and the record is counted as failed. *)
Example migrate_deployed :
  let final :=
    report (fst (migrate helloEngine (fun _ _ text => text) helloEnvironment
                   None (Some "demo-project") "out"
                   (newRun ([] : list (string * option string))))) in
  (total final, migrated final, failed final) = (1, 0, 1).
Proof. reflexivity. Qed.

(** A migrator that is run a second time keeps its counts and overwrites
    its total. *)
Example migrate_twice :
  let first :=
    fst (migrate helloEngine (fun _ _ text => text) helloEnvironment
           (Some "functions") None "out" (newRun ([] : list (string * option string)))) in
  let final :=
    report (fst (migrate helloEngine (fun _ _ text => text) helloEnvironment
                   (Some "functions") None "out" first)) in
  (total final, migrated final, failed final) = (1, 2, 0).
Proof. reflexivity. Qed.

(** The same run on a disk where nothing can be created: the run is
    rejected and no record is counted. *)
Example migrate_locked :
  let run := migrate helloEngine (fun _ _ text => text) helloEnvironment
               (Some "functions") None "out" (newRun lockedDisk) in
  (total (report (fst run)), migrated (report (fst run)), failed (report (fst run)), snd run)
  = (1, 0, 0, Some "EACCES: permission denied").
Proof. reflexivity. Qed.

(** Records whose kind names an inherited property: [toString] is rendered
    as the text of the migrator and counted as migrated; [constructor] gives
    an object, which cannot be written, and is counted as failed;
    [hasOwnProperty] gives [false] and is skipped with one warning. *)
Example migrate_inherited :
  let kind (type : string) :=
    {| name := "odd"; type := type; source := "index.js"; raw := None; document := None;
       trigger := None; schedule := None; body := Some "{ }"; url := None |} in
  let st := fst (createEdgeFunctions (fun _ _ text => text) "out"
                   [kind "toString"; kind "constructor"; kind "hasOwnProperty"; kind "cron"]
                   (newRun preparedDisk)) in
  (migrated (report st), failed (report st), length (warnings (report st)),
   map (fun e => (summaryType e, entryMigrated e)) (summary st))
  = (1, 1, 3, [("toString", true); ("constructor", false)]).
Proof. reflexivity. Qed.

End OrchestratorFacts.

(** ** Document-Tree Exporter *)

Module ExporterFacts.
Import Js Exporter StringFacts Samples.

(** *** Paging *)

Section PagingFacts.
Variable db : Firestore.
Variable processDocument : option (string -> gmap string Value -> gmap string Value).

Lemma processDocs_length name include maxDepth subLimit docs :
  forall acc st,
    length (fst (processDocs processDocument name include maxDepth subLimit docs acc st))
    = length acc + length docs.
Proof.
  induction docs as [|fsdoc docs IH]; intros acc st; simpl; [lia|].
  rewrite IH, length_app. simpl. lia.
Qed.

(** The query ignores the offset. *)
Lemma fetch_ignores_offset name offset batchSize :
  fetch db name offset batchSize = fetch db name 0 batchSize.
Proof. reflexivity. Qed.

(** Without a global limit a batch holds as many documents as the query
    returns. *)
Lemma getBatch_unlimited_length name offset batchSize include maxDepth subLimit st docs :
  collection db name = Ok docs ->
  length (fst (fst (getBatch db processDocument name offset batchSize 0 include
                      maxDepth subLimit st)))
  = Nat.min batchSize (length docs).
Proof.
  intros Hdocs. unfold getBatch, fetch. rewrite Hdocs. cbn [bindResult Nat.ltb Nat.leb andb].
  match goal with
  | |- context [processDocs ?h ?n ?i ?m ?s ?d ?a ?st0] =>
      pose proof (processDocs_length n i m s d a st0) as Hlen;
      destruct (processDocs h n i m s d a st0) as [fetched st1]
  end.
  cbn in *. rewrite Hlen, length_firstn. reflexivity.
Qed.

(** With no global limit, a non-empty root collection and a positive batch
    size, no number of calls of [getAll] reaches the empty batch that ends
    the paging. *)
Lemma getAll_never_done name batchSize include maxDepth subLimit docs :
  collection db name = Ok docs -> docs <> [] -> 0 < batchSize ->
  forall calls offset st,
    getAll db processDocument calls name offset batchSize 0 include maxDepth subLimit st
    = None.
Proof.
  intros Hdocs Hne Hpos. induction calls as [|calls IH]; intros offset st; [reflexivity|].
  simpl.
  pose proof (getBatch_unlimited_length name offset batchSize include maxDepth subLimit st
                docs Hdocs) as Hlen.
  destruct (getBatch db processDocument name offset batchSize 0 include maxDepth subLimit st)
    as [[fetched thrown] st1].
  cbn in Hlen.
  assert (0 < length fetched) as Hfetched.
  { rewrite Hlen. destruct docs; [congruence|]. simpl. lia. }
  apply Nat.ltb_lt in Hfetched. rewrite Hfetched. apply IH.
Qed.

End PagingFacts.

(** C1, at the store [blog] with batch size 1000 and no limit: whatever the
    offset, the batch is the first document of the collection again, and no
    number of calls of [getAll] ends the paging. *)
Theorem paging_repeats_first_batch :
  (forall offset st,
      fst (fst (getBatch blog None "users" offset 1000 0 false 3 100 st))
      = [assignIdentity "u1" (data user1)]) /\
  (forall calls offset st,
      getAll blog None calls "users" offset 1000 0 false 3 100 st = None).
Proof.
  split.
  - intros offset st. unfold getBatch.
    destruct (recordCounters st !! "users"); reflexivity.
  - intros calls offset st.
    apply (getAll_never_done blog None "users" 1000 false 3 100 [user1]);
      [reflexivity|discriminate|lia].
Qed.

(** With a global limit the counter of the collection ends the paging. *)
Example paging_with_limit :
  option_map (fun st => recordCounters st !! "users")
    (getAll blog None 3 "users" 0 1000 1 false 3 100 initialState)
  = Some (Some 1).
Proof. vm_compute. reflexivity. Qed.

(** *** SubcollectionWalk *)

(** The nested collections listed after one whose [get()] fails have no
    effect on the walk: the one [catch] ends the loop. *)
Lemma walk_ignores_later_siblings i d pre name e post parent parentId maxDepth depth subLimit :
  forall st,
    exportSubcollectionsAsSeparateFiles (Doc i d (Ok (pre ++ (name, Throw e) :: post)))
      parent parentId maxDepth depth subLimit st
    = exportSubcollectionsAsSeparateFiles (Doc i d (Ok (pre ++ [(name, Throw e)])))
        parent parentId maxDepth depth subLimit st.
Proof.
  intros st. cbn [exportSubcollectionsAsSeparateFiles].
  destruct (maxDepth <=? depth); [reflexivity|].
  revert st. induction pre as [|[n [docs|e']] pre IH]; intros st.
  - reflexivity.
  - cbn [app]. apply IH.
  - reflexivity.
Qed.

(** C2, at the document [user2]: the error of the second nested collection
    is logged and that collection gives no record, the first was exported
    before it, and the third, which can be read, is never fetched. *)
Theorem walk_stops_at_failed_collection :
  let st := exportSubcollectionsAsSeparateFiles user2 "users" "u2" 3 0 100 initialState in
  map fst (written st) = ["users_drafts"; "users_drafts_comments"] /\
  recordCounters st !! "users_likes" = None /\
  stderr st = ["Error processing subcollections: permission denied"].
Proof. vm_compute. repeat split. Qed.

(** The same document without the failing collection: both remaining
    collections are exported. *)
Example walk_without_failure :
  let st :=
    exportSubcollectionsAsSeparateFiles
      (Doc "u2" {[ "name" := VString "Bo" ]} (Ok [("drafts", Ok [post1]); ("likes", Ok [like1])]))
      "users" "u2" 3 0 100 initialState in
  map fst (written st) = ["users_drafts"; "users_drafts_comments"; "users_likes"] /\
  stderr st = [].
Proof. vm_compute. repeat split. Qed.

(** The depth guard: with [maxDepth] 0 nothing is listed, with [maxDepth] 1
    only the first level is exported. *)
Example walk_depth_zero (st : State) :
  exportSubcollectionsAsSeparateFiles user1 "users" "u1" 0 0 100 st = st.
Proof. reflexivity. Qed.

Example walk_depth_one :
  map fst (written (exportSubcollectionsAsSeparateFiles user1 "users" "u1" 1 0 100 initialState))
  = ["users_posts"].
Proof. vm_compute. reflexivity. Qed.

(** *** Identity field *)

(** A root document with none of the four candidate fields receives its
    identifier as [firestore_id]; when that name is taken, as [firestoreid]. *)
Lemma root_identity_fresh (fsdocId : string) (doc : gmap string Value) :
  truthy (field doc "firestore_id") = false ->
  field (assignIdentity fsdocId doc) "firestore_id" = VString fsdocId.
Proof.
  intros Hfree. unfold assignIdentity. rewrite Hfree. cbn [negb].
  unfold field. rewrite lookup_insert_eq. reflexivity.
Qed.

Lemma root_identity_alternate (fsdocId : string) (doc : gmap string Value) :
  truthy (field doc "firestore_id") = true ->
  truthy (field doc "firestoreid") = false ->
  field (assignIdentity fsdocId doc) "firestoreid" = VString fsdocId /\
  field (assignIdentity fsdocId doc) "firestore_id" = field doc "firestore_id".
Proof.
  intros Htaken Hfree. unfold assignIdentity. rewrite Htaken, Hfree. cbn [negb].
  unfold field. rewrite lookup_insert_eq, lookup_insert_ne by discriminate. auto.
Qed.

(** A nested document is given its identifier under [firestore_id] when
    that field is free. *)
Lemma nested_identity_fresh parent parentId sub depth (doc : FsDoc) :
  truthy (field (data doc) "firestore_id") = false ->
  field (stampNested parent parentId sub depth doc) "firestore_id" = VString (docId doc).
Proof.
  intros Hfree. unfold stampNested. rewrite Hfree. cbn [negb].
  unfold field. rewrite !lookup_insert_ne by discriminate.
  rewrite lookup_insert_eq. reflexivity.
Qed.

(** When the field is taken, the walk tries no other name: the four
    candidate fields of the record are those of the source document. *)
Lemma nested_identity_taken parent parentId sub depth (doc : FsDoc) (key : string) :
  truthy (field (data doc) "firestore_id") = true ->
  In key ["firestore_id"; "firestoreid"; "original_id"; "originalid"] ->
  field (stampNested parent parentId sub depth doc) key = field (data doc) key.
Proof.
  intros Htaken Hkey. unfold stampNested. rewrite Htaken. cbn [negb].
  unfold field. simpl in Hkey.
  repeat (destruct Hkey as [<-|Hkey];
          [rewrite !lookup_insert_ne by discriminate; reflexivity|]).
  destruct Hkey.
Qed.

(** C3, at the document [legacyPost], whose field [firestore_id] is taken:
    as a root document it receives its identifier under the first free
    alternate name; as a nested document it receives it under no name. *)
Theorem nested_identity_dropped :
  field (assignIdentity "p9" (data legacyPost)) "firestoreid" = VString "p9" /\
  let record := stampNested "users" "u1" "posts" 0 legacyPost in
  field record "firestore_id" = VString "legacy-7" /\
  field record "firestoreid" = VUndefined /\
  field record "original_id" = VUndefined /\
  field record "originalid" = VUndefined.
Proof. vm_compute. repeat split. Qed.

(** *** Linkage fields *)

(** Below the first level the path is built from the field
    [collection_path] of the nested document itself, whatever the path of
    its parent is. *)
Lemma nested_path_from_own_field parent parentId sub depth (doc : FsDoc) :
  field (stampNested parent parentId sub (S depth) doc) "collection_path"
  = VString (toString
               (field (<["parent_document_id" := VString parentId]>
                         (<["parent_collection" := VString parent]>
                            (if negb (truthy (field (data doc) "firestore_id"))
                             then <["firestore_id" := VString (docId doc)]> (data doc)
                             else data doc)))
                      "collection_path")
             +:+ "/" +:+ sub).
Proof. unfold stampNested, field. rewrite lookup_insert_eq. reflexivity. Qed.

Lemma nested_path_undefined parent parentId sub depth (doc : FsDoc) :
  data doc !! "collection_path" = None ->
  field (stampNested parent parentId sub (S depth) doc) "collection_path"
  = VString ("undefined/" +:+ sub).
Proof.
  intros Hnone. rewrite nested_path_from_own_field. unfold field at 1.
  rewrite !lookup_insert_ne by discriminate.
  destruct (negb (truthy (field (data doc) "firestore_id")));
    [rewrite lookup_insert_ne by discriminate|]; rewrite Hnone; reflexivity.
Qed.

(** C4, at the store [blog]: the record of the document of [comments],
    whose parent is the nested document [p1], is stamped with a path built
    from an undefined component, and not from the path of its parent. *)
Theorem nested_path_from_undefined :
  let st := exportSubcollectionsAsSeparateFiles user1 "users" "u1" 3 0 100 initialState in
  map (fun entry => (fst entry, field (snd entry) "collection_path")) (written st)
  = [ ("users_posts", VString "users/u1/posts");
      ("users_posts_comments", VString "undefined/comments") ].
Proof. vm_compute. reflexivity. Qed.

End ExporterFacts.

(** ** The pipeline: scanner, generator and orchestrator together *)

Module PipelineFacts.
Import Js Transpiler StringFacts Samples.

Section Pipeline.
Context {FS : Type} `{FileSystem FS}.
Variable engine : RegExpEngine.
Variable boilerplate : string -> FunctionRecord -> string -> string.
Variable env : Environment.

Ltac in_list := cbn; repeat (first [left; reflexivity|right]).

(** The kinds [createEdgeFunctions] does not skip: the seven with a
    registered template, and the inherited properties whose call returns a
    truthy value or throws. *)
Lemma skipped_kinds (f : FunctionRecord) :
  skipped boilerplate f = false <->
  In (type f)
     (supportedTypes
      ++ [ "constructor"; "toString"; "toLocaleString"; "valueOf"; "__proto__";
           "__defineGetter__"; "__defineSetter__" ]).
Proof.
  split.
  - destruct f as [name ty source raw document trigger schedule body url].
    unfold skipped, generateEdgeFunction, lookupTemplate, templates, objectPrototype.
    cbn [ownProperty type].
    repeat match goal with
           | |- context [String.eqb ?k ty] =>
               destruct (String.eqb k ty) eqn:E;
               [apply String.eqb_eq in E; subst ty; intros Hs;
                first [solve [in_list]|cbn in Hs; discriminate Hs]
               |clear E]
           end.
    cbn. discriminate.
  - intros Hin. apply in_app_or in Hin as [Hin|Hin].
    + apply OrchestratorFacts.registered_not_skipped. unfold hasTemplate.
      unfold supportedTypes, templates in Hin. simpl in Hin.
      repeat (destruct Hin as [<-|Hin]; [reflexivity|]). destruct Hin.
    + unfold skipped, generateEdgeFunction.
      simpl in Hin.
      repeat (destruct Hin as [<-|Hin]; [reflexivity|]). destruct Hin.
Qed.

(** X1: when [createEdgeFunctions] returns, every record it was given is
    accounted for exactly once.  The summary it returns has one entry for
    each record that is not skipped, in the order of the records and under
    the name and kind of the record, and none for a skipped one; the migrated
    count grows by the number of the entries with the status migrated and the
    failed count by the number of the others; so the migrated, the failed and
    the skipped records add up to the records given.  A record is skipped
    exactly when its kind is none of the seven with a registered template
    and names no inherited property of the table whose call returns a truthy
    value or throws: a record of the kind [toString] is not skipped. *)
Theorem records_counted_once (outputDir : string) (functions : list FunctionRecord)
  (st : Run) :
  snd (createEdgeFunctions boilerplate outputDir functions st) = None ->
  let st' := fst (createEdgeFunctions boilerplate outputDir functions st) in
  map (fun e => (summaryName e, summaryType e)) (summary st')
  = map (fun f => (name f, type f)) (countedRecords boilerplate functions) /\
  migrated (report st')
  = migrated (report st) + length (List.filter entryMigrated (summary st')) /\
  failed (report st')
  = failed (report st)
    + length (List.filter (fun e => negb (entryMigrated e)) (summary st')) /\
  migrated (report st') + failed (report st') + skippedCount boilerplate functions
  = migrated (report st) + failed (report st) + length functions /\
  (forall f,
      skipped boilerplate f = false <->
      In (type f)
         (supportedTypes
          ++ [ "constructor"; "toString"; "toLocaleString"; "valueOf"; "__proto__";
               "__defineGetter__"; "__defineSetter__" ])).
Proof.
  intros Hret. cbv zeta.
  destruct (OrchestratorFacts.createEdgeFunctions_returns boilerplate outputDir functions st
              Hret) as [d ->].
  set (st0 := {| report := report st; disk := d; summary := [] |}).
  pose proof (OrchestratorFacts.loop_accounts boilerplate outputDir functions st0)
    as (_ & entries & Hsum & Hmap & Hm & Hf).
  pose proof (OrchestratorFacts.loop_counts boilerplate outputDir functions st0)
    as (_ & Hcount & _).
  cbv zeta in *. cbn [st0 report summary app] in Hsum, Hm, Hf, Hcount.
  rewrite Hsum. repeat split; auto. all: apply skipped_kinds.
Qed.

(** A record without a body whose kind has a template fails: the rewriter
    throws on the absent body. *)
Lemma bodyless_record_fails (outputDir : string) (st : Run) (func : FunctionRecord) :
  body func = None -> hasTemplate func = true ->
  let st' := migrateFunction boilerplate outputDir st func in
  migrated (report st') = migrated (report st) /\
  failed (report st') = S (failed (report st)) /\
  total (report st') = total (report st).
Proof.
  intros Hbody Htemplate. unfold hasTemplate in Htemplate.
  unfold migrateFunction, generateEdgeFunction, lookupTemplate, generator. rewrite Hbody.
  destruct (ownProperty templates (type func)); [|discriminate].
  cbn. auto.
Qed.

Lemma bodyless_records_fail (outputDir : string) (functions : list FunctionRecord) :
  Forall (fun f => body f = None /\ hasTemplate f = true) functions ->
  forall st : Run,
    let st' := fold_left (migrateFunction boilerplate outputDir) functions st in
    migrated (report st') = migrated (report st) /\
    failed (report st') = failed (report st) + length functions /\
    total (report st') = total (report st).
Proof.
  induction 1 as [|func functions [Hbody Htemplate] _ IH]; intros st; simpl.
  - repeat split; lia.
  - destruct (IH (migrateFunction boilerplate outputDir st func)) as (Hm & Hf & Ht).
    destruct (bodyless_record_fails outputDir st func Hbody Htemplate) as (Hm1 & Hf1 & Ht1).
    repeat split; [congruence|lia|congruence].
Qed.

Lemma generateReport_keeps (outputDir : string) (st : Run) :
  report (fst (generateReport env outputDir st)) = report st.
Proof. apply OrchestratorFacts.generateReport_report. Qed.

(** X2: a run over a deployed project migrates nothing.  The records of
    the inventory have no body, so rendering any of them throws; when the
    output directory exists, every record of the run is counted as failed. *)
Theorem deployed_project_never_migrates
  (sourceDir firebaseProject : option string) (outputDir : string) (d : FS) :
  truthyString sourceDir = false -> truthyString firebaseProject = true ->
  let final :=
    report (fst (migrate engine boilerplate env sourceDir firebaseProject outputDir
                   (newRun d))) in
  migrated final = 0 /\
  (existsSync d outputDir = true -> failed final = total final).
Proof.
  intros Hsource Hproject. cbv zeta.
  unfold migrate, parseFunctions. rewrite Hsource, Hproject. cbn [report newRun].
  destruct (OrchestratorFacts.parseFunctionsFromFirebase_bodyless env
              (default EmptyString firebaseProject) newReport) as (Hall & Hm0 & Hf0).
  destruct (parseFunctionsFromFirebase env (default EmptyString firebaseProject) newReport)
    as [functions r].
  cbn [fst snd] in Hall, Hm0, Hf0. cbn in Hm0, Hf0.
  destruct (length functions =? 0)%nat eqn:Elen.
  { apply Nat.eqb_eq in Elen. cbn. rewrite Elen, Hm0, Hf0. auto. }
  unfold createEdgeFunctions. cbn [disk withReport newRun].
  destruct (existsSync d outputDir) eqn:Eexists.
  - cbn [withDisk report disk summary]. rewrite generateReport_keeps.
    match goal with
    | |- context [fold_left _ functions ?st0] =>
        destruct (bodyless_records_fail outputDir functions Hall st0) as (Hm & Hf & Ht)
    end.
    cbv zeta in Hm, Hf, Ht. rewrite Hm, Hf, Ht. cbn. rewrite Hm0, Hf0. split; [reflexivity|].
    intros _. reflexivity.
  - destruct (mkdirSync d outputDir) as [d' [e|]]; cbn [withDisk report disk summary fst].
    + cbn. split; [exact Hm0|discriminate].
    + rewrite generateReport_keeps.
      match goal with
      | |- context [fold_left _ functions ?st0] =>
          destruct (bodyless_records_fail outputDir functions Hall st0) as (Hm & Hf & Ht)
      end.
      cbv zeta in Hm, Hf, Ht. rewrite Hm. cbn. split; [exact Hm0|discriminate].
Qed.

Lemma scanned_none_skipped (functions : list FunctionRecord) :
  Forall scannedRecord functions -> skippedCount boilerplate functions = 0.
Proof.
  unfold skippedCount. induction 1 as [|f functions Hf _ IH]; [reflexivity|].
  cbn [List.filter].
  rewrite (OrchestratorFacts.registered_not_skipped boilerplate f
             (OrchestratorFacts.scanned_has_template f Hf)).
  exact IH.
Qed.

Lemma writeUnit_reliable (outputDir : string) (func : FunctionRecord) (code : string) (d : FS) :
  reliableDisk FS -> snd (writeUnit outputDir func (generatedText code) d) = None.
Proof.
  intros [Hmkdir Hwrite]. unfold writeUnit.
  destruct (existsSync d _).
  - pose proof (Hwrite d (pathJoin (pathJoin outputDir (name func)) "index.ts") code) as H1.
    destruct (writeFileSync d _ code) as [d1 thrown]. cbn in H1. subst thrown.
    apply Hwrite.
  - pose proof (Hmkdir d (pathJoin outputDir (name func))) as H0.
    destruct (mkdirSync d _) as [d0 thrown]. cbn in H0. subst thrown.
    pose proof (Hwrite d0 (pathJoin (pathJoin outputDir (name func)) "index.ts") code) as H1.
    destruct (writeFileSync d0 _ code) as [d1 thrown]. cbn in H1. subst thrown.
    apply Hwrite.
Qed.

(** On a reliable disk a record of the scanner is migrated. *)
Lemma scanned_record_migrates (outputDir : string) (st : Run) (func : FunctionRecord) :
  reliableDisk FS -> scannedRecord func ->
  let st' := migrateFunction boilerplate outputDir st func in
  migrated (report st') = S (migrated (report st)) /\
  failed (report st') = failed (report st).
Proof.
  intros Hdisk Hscanned.
  pose proof (OrchestratorFacts.registered_not_skipped boilerplate func
                (OrchestratorFacts.scanned_has_template func Hscanned)) as Hskip.
  destruct Hscanned as [Hty [b Hb]].
  destruct (ScannerFacts.supported_record_generates boilerplate func (report st) b Hty Hb)
    as [code Hgen].
  destruct (OrchestratorFacts.generateEdgeFunction_report boilerplate func (report st))
    as [Hsame _].
  cbv zeta in Hsame. unfold skipped in Hskip. rewrite <- Hsame, Hgen in Hskip.
  cbn [snd] in Hskip.
  unfold migrateFunction. rewrite Hgen, Hskip.
  pose proof (writeUnit_reliable outputDir func code
                (disk (withReport (fun _ => report st) st)) Hdisk) as Hwrite.
  destruct (writeUnit outputDir func (generatedText code)
              (disk (withReport (fun _ => report st) st))) as [d thrown].
  cbn in Hwrite. subst thrown. cbn. split; reflexivity.
Qed.

Lemma scanned_records_migrate (outputDir : string) (functions : list FunctionRecord) :
  reliableDisk FS -> Forall scannedRecord functions ->
  forall st : Run,
    let st' := fold_left (migrateFunction boilerplate outputDir) functions st in
    migrated (report st') = migrated (report st) + length functions /\
    failed (report st') = failed (report st).
Proof.
  intros Hdisk. induction 1 as [|func functions Hf _ IH]; intros st; simpl; [lia|].
  destruct (IH (migrateFunction boilerplate outputDir st func)) as [Hm Hfail].
  destruct (scanned_record_migrates outputDir st func Hdisk Hf) as [Hm1 Hf1].
  cbv zeta in *. lia.
Qed.

(** X3: a run over a source directory skips no record: when the output
    directory exists, every record the scanner found is counted as migrated
    or as failed; and on a disk that never fails every one is migrated. *)
Theorem source_run_skips_nothing
  (sourceDir firebaseProject : option string) (outputDir : string) (d : FS) :
  truthyString sourceDir = true ->
  let final :=
    report (fst (migrate engine boilerplate env sourceDir firebaseProject outputDir
                   (newRun d))) in
  (existsSync d outputDir = true -> migrated final + failed final = total final) /\
  (reliableDisk FS -> migrated final = total final /\ failed final = 0).
Proof.
  intros Hsource. cbv zeta.
  unfold migrate, parseFunctions. rewrite Hsource. cbn [report newRun].
  destruct (OrchestratorFacts.parseFunctionsFromSource_scanned engine env
              (default EmptyString sourceDir) newReport) as (Hall & Hm0 & Hf0).
  destruct (parseFunctionsFromSource engine env (default EmptyString sourceDir) newReport)
    as [functions r].
  cbn [fst snd] in Hall, Hm0, Hf0. cbn in Hm0, Hf0.
  destruct (length functions =? 0)%nat eqn:Elen.
  { apply Nat.eqb_eq in Elen. cbn. rewrite Elen, Hm0, Hf0. repeat split; lia. }
  unfold createEdgeFunctions. cbn [disk withReport newRun].
  split.
  - intros Hexists. rewrite Hexists. cbn [withDisk report disk summary fst].
    rewrite generateReport_keeps.
    match goal with
    | |- context [fold_left _ functions ?st0] =>
        pose proof (OrchestratorFacts.loop_counts boilerplate outputDir functions st0)
          as (Ht & Hcount & _)
    end.
    cbv zeta in Ht, Hcount. rewrite (scanned_none_skipped functions Hall) in Hcount.
    rewrite Ht. cbn in *. lia.
  - intros Hdisk.
    assert (Hmk : exists d', (if existsSync d outputDir then (d, None)
                              else mkdirSync d outputDir) = (d', None)).
    { destruct (existsSync d outputDir); [eexists; reflexivity|].
      destruct Hdisk as [Hmkdir _]. specialize (Hmkdir d outputDir).
      destruct (mkdirSync d outputDir) as [d' thrown]. cbn in Hmkdir. subst thrown.
      eexists; reflexivity. }
    destruct Hmk as [d' ->]. cbn [withDisk report disk summary fst].
    rewrite generateReport_keeps.
    match goal with
    | |- context [fold_left _ functions ?st0] =>
        pose proof (OrchestratorFacts.loop_counts boilerplate outputDir functions st0)
          as (Ht & _);
        destruct (scanned_records_migrate outputDir functions Hdisk Hall st0) as [Hm Hf]
    end.
    cbv zeta in Ht, Hm, Hf. rewrite Ht, Hm, Hf. cbn. lia.
Qed.

(** The files that are read and scanned without an error contribute their
    records, in order. *)
Lemma scanFiles_prefix (before : list (string * Result string))
  (parsed : list (list FunctionRecord)) :
  Forall2 (fun file records =>
             exists content,
               snd file = Ok content /\
               parseCloudFunctions engine content (fst file) = Ok records) before parsed ->
  forall rest functions,
    scanFiles engine (before ++ rest) functions
    = scanFiles engine rest (functions ++ concat parsed).
Proof.
  induction 1 as [|[relativePath read] records before parsed (content & Hread & Hparse) _ IH];
    intros rest functions.
  - cbn. rewrite app_nil_r. reflexivity.
  - cbn [fst snd] in Hread, Hparse. subst read. cbn [app scanFiles concat].
    rewrite Hparse, IH, <- List.app_assoc. reflexivity.
Qed.

(** X17: the scan of a source directory stops at the first file that cannot
    be read.  When the files before it are read and scanned without an
    error, [parseFunctionsFromSource] returns exactly their records, in the
    order of the files; the files after it are never scanned, so the result
    is the same whatever they are; and the error of the read is reported
    once, as the one new entry of the errors of the report. *)
Theorem scan_stops_at_unreadable_file (sourceDir : string)
  (before after : list (string * Result string)) (parsed : list (list FunctionRecord))
  (relativePath e : string) (r : MigrationReport) :
  sourceFiles env sourceDir = Ok (before ++ (relativePath, Throw e) :: after) ->
  Forall2 (fun file records =>
             exists content,
               snd file = Ok content /\
               parseCloudFunctions engine content (fst file) = Ok records) before parsed ->
  parseFunctionsFromSource engine env sourceDir r
  = (concat parsed, log ("Error parsing functions: " +:+ e) error r) /\
  errors (snd (parseFunctionsFromSource engine env sourceDir r))
  = errors r ++ ["Error parsing functions: " +:+ e] /\
  warnings (snd (parseFunctionsFromSource engine env sourceDir r)) = warnings r.
Proof.
  intros Hfiles Hbefore.
  assert (Hscan : scanFiles engine (before ++ (relativePath, Throw e) :: after) []
                  = (concat parsed, Some e)).
  { rewrite (scanFiles_prefix before parsed Hbefore). reflexivity. }
  unfold parseFunctionsFromSource. rewrite Hfiles.
  destruct (before ++ (relativePath, Throw e) :: after) as [|file files] eqn:E.
  { destruct before; discriminate. }
  rewrite Hscan. cbn. repeat split; reflexivity.
Qed.

End Pipeline.

Lemma source_run_skips_nothing_witness :
  let final :=
    report (fst (migrate helloEngine (fun _ _ text => text) helloEnvironment
                   (Some "functions") None "out" (newRun preparedDisk))) in
  (existsSync preparedDisk "out" = true -> migrated final + failed final = total final) /\
  (reliableDisk (list (string * option string)) ->
   migrated final = total final /\ failed final = 0).
Proof.
  exact (source_run_skips_nothing helloEngine (fun _ _ text => text) helloEnvironment
           (Some "functions") None "out" preparedDisk eq_refl).
Defined.

Lemma records_counted_once_witness :
  let boilerplate := fun (_ : string) (_ : FunctionRecord) (text : string) => text in
  let functions := [helloRecord; inheritedRecord; cronRecord] in
  let st' := fst (createEdgeFunctions boilerplate "out" functions (newRun preparedDisk)) in
  map (fun e => (summaryName e, summaryType e)) (summary st')
  = map (fun f => (name f, type f)) (countedRecords boilerplate functions) /\
  migrated (report st')
  = migrated (report (newRun preparedDisk))
    + length (List.filter entryMigrated (summary st')) /\
  failed (report st')
  = failed (report (newRun preparedDisk))
    + length (List.filter (fun e => negb (entryMigrated e)) (summary st')) /\
  migrated (report st') + failed (report st') + skippedCount boilerplate functions
  = migrated (report (newRun preparedDisk)) + failed (report (newRun preparedDisk))
    + length functions /\
  (forall f,
      skipped boilerplate f = false <->
      In (type f)
         (supportedTypes
          ++ [ "constructor"; "toString"; "toLocaleString"; "valueOf"; "__proto__";
               "__defineGetter__"; "__defineSetter__" ])).
Proof.
  exact (records_counted_once (fun _ _ text => text) "out"
           [helloRecord; inheritedRecord; cronRecord] (newRun preparedDisk) eq_refl).
Defined.

(** The run behind the witness: the record of the scanner and the record
    of the kind [toString] are migrated, the record of the kind [cron] is
    skipped. *)
Example records_counted_once_run :
  let st' := fst (createEdgeFunctions (fun _ _ text => text) "out"
                    [helloRecord; inheritedRecord; cronRecord] (newRun preparedDisk)) in
  (migrated (report st'), failed (report st'),
   skippedCount (fun _ _ text => text) [helloRecord; inheritedRecord; cronRecord],
   map summaryName (summary st'))
  = (2, 0, 1, ["hello"; "odd"]).
Proof. reflexivity. Qed.

Lemma deployed_project_never_migrates_witness :
  let final :=
    report (fst (migrate helloEngine (fun _ _ text => text) helloEnvironment
                   None (Some "demo-project") "out" (newRun preparedDisk))) in
  migrated final = 0 /\
  (existsSync preparedDisk "out" = true -> failed final = total final).
Proof.
  exact (deployed_project_never_migrates helloEngine (fun _ _ text => text)
           helloEnvironment None (Some "demo-project") "out" preparedDisk eq_refl eq_refl).
Defined.

Lemma scan_stops_at_unreadable_file_witness :
  parseFunctionsFromSource helloEngine unreadableEnvironment "functions" newReport
  = (concat [[helloRecord]],
     log ("Error parsing functions: " +:+ "EACCES: permission denied") error newReport) /\
  errors (snd (parseFunctionsFromSource helloEngine unreadableEnvironment "functions"
                 newReport))
  = errors newReport ++ ["Error parsing functions: " +:+ "EACCES: permission denied"] /\
  warnings (snd (parseFunctionsFromSource helloEngine unreadableEnvironment "functions"
                   newReport))
  = warnings newReport.
Proof.
  apply (scan_stops_at_unreadable_file helloEngine unreadableEnvironment "functions"
           [("index.js", Ok helloSource)] [("other.js", Ok helloSource)] [[helloRecord]]
           "locked.js" "EACCES: permission denied" newReport eq_refl).
  constructor; [|constructor]. exists helloSource. split; reflexivity.
Defined.

(** A line of the inventory that names a function and holds no URL ends
    the loop: the records of the lines before it are kept and the error is
    reported. *)
Example inventory_line_without_url :
  let env :=
    {| sourceFiles := fun _ => Ok [];
       deployedFunctions :=
         fun _ => Ok [ functionLine "first" (Some "https://example.test/first");
                       functionLine "second" None;
                       functionLine "third" (Some "https://example.test/third") ];
       deployedSource := fun _ => true;
       reportText := fun _ _ => "# Function Migration Report" |} in
  let result := parseFunctionsFromFirebase env "demo-project" newReport in
  (map name (fst result), errors (snd result))
  = (["first"],
     ["Error fetching Firebase functions: Cannot read properties of null (reading '0')"]).
Proof. reflexivity. Qed.

End PipelineFacts.

(** ** More on the Body Extractor and the scanner's types *)

Module ExtractorMore.
Import Js Transpiler StringFacts.

(** Inside a block the loop only appends the text it reads. *)
Lemma scan_inside_appends (rest : string) :
  forall (d : Z) (body : string),
    exists b tail, scanBody d true body rest = body +:+ b /\ rest = b +:+ tail.
Proof.
  induction rest as [|c rest IH]; intros d body.
  - exists EmptyString, EmptyString. rewrite string_app_nil_r. split; reflexivity.
  - simpl scanBody.
    destruct (Ascii.eqb c "{"); [|destruct (Ascii.eqb c "}")]; cbn [andb].
    + destruct (Ascii.eqb c "}").
      * destruct ((d + 1 - 1 =? 0)%Z).
        -- exists (String c EmptyString), rest. split; reflexivity.
        -- destruct (IH (d + 1 - 1)%Z (body +:+ String c EmptyString)) as (b & tail & Hs & Ht).
           exists (String c b), tail.
           split; [rewrite Hs, string_app_assoc|rewrite string_app_cons, <- Ht]; reflexivity.
      * destruct (IH (d + 1)%Z (body +:+ String c EmptyString)) as (b & tail & Hs & Ht).
        exists (String c b), tail.
        split; [rewrite Hs, string_app_assoc|rewrite string_app_cons, <- Ht]; reflexivity.
    + destruct ((d - 1 =? 0)%Z); cbn [andb].
      * exists (String c EmptyString), rest. split; reflexivity.
      * destruct (IH (d - 1)%Z (body +:+ String c EmptyString)) as (b & tail & Hs & Ht).
        exists (String c b), tail.
        split; [rewrite Hs, string_app_assoc|rewrite string_app_cons, <- Ht]; reflexivity.
    + destruct (IH d (body +:+ String c EmptyString)) as (b & tail & Hs & Ht).
      exists (String c b), tail.
      split; [rewrite Hs, string_app_assoc|rewrite string_app_cons, <- Ht]; reflexivity.
Qed.

(** Outside a block the loop looks for the first open brace, whatever the
    depth the close braces before it have left. *)
Lemma scan_outside (rest : string) :
  forall d : Z,
    (opens rest = 0 /\ scanBody d false EmptyString rest = EmptyString) \/
    (exists pre b tail,
        rest = pre +:+ b +:+ tail /\ opens pre = 0 /\ startsWith "{" b = true /\
        scanBody d false EmptyString rest = b).
Proof.
  unfold opens.
  induction rest as [|c rest IH]; intros d; [left; split; reflexivity|].
  simpl scanBody. simpl countChar.
  destruct (Ascii.eqb c "{") eqn:E1.
  - right. apply Ascii.eqb_eq in E1. subst c. cbn [Ascii.eqb].
    change (Ascii.eqb "{" "}") with false. cbv iota.
    destruct (scan_inside_appends rest (d + 1)%Z (EmptyString +:+ "{")) as (b & tail & Hs & Ht).
    exists EmptyString, (String "{" b), tail. rewrite Hs.
    split; [rewrite string_app_nil_l, string_app_cons, <- Ht; reflexivity|].
    split; [reflexivity|]. split; reflexivity.
  - assert (Hd : exists d', (if Ascii.eqb c "}"
                             then if (d - 1 =? 0)%Z && false then EmptyString
                                  else scanBody (d - 1) false EmptyString rest
                             else scanBody d false EmptyString rest)
                            = scanBody d' false EmptyString rest).
    { destruct (Ascii.eqb c "}"); [rewrite andb_false_r|]; eexists; reflexivity. }
    destruct Hd as [d' ->].
    destruct (IH d') as [[Hno Hempty]|(pre & b & tail & Hrest & Hpre & Hb & Hscan)].
    + left. split; [simpl; exact Hno|exact Hempty].
    + right. exists (String c pre), b, tail. rewrite string_app_cons, <- Hrest.
      split; [reflexivity|]. split; [simpl; rewrite E1; exact Hpre|]. split; assumption.
Qed.

(** X4: whatever the text and the offset, the body returned is a contiguous
    piece of the text from the offset on, and it begins at the first open
    brace found there; it is empty exactly when there is no open brace. *)
Theorem extract_is_piece_of_source (content : string) (startIndex : nat) :
  (opens (substringFrom startIndex content) = 0 /\
   extractFunctionBody content startIndex = EmptyString) \/
  (exists pre tail,
      substringFrom startIndex content
      = pre +:+ extractFunctionBody content startIndex +:+ tail /\
      opens pre = 0 /\
      startsWith "{" (extractFunctionBody content startIndex) = true).
Proof.
  unfold extractFunctionBody.
  destruct (scan_outside (substringFrom startIndex content) 0)
    as [H|(pre & b & tail & Hrest & Hpre & Hb & Hscan)]; [left; exact H|].
  right. exists pre, tail. rewrite Hscan. auto.
Qed.

(** X5: [normalizeType] returns one of the seven kinds with a template or
    its argument as it is, and normalising twice is normalising once. *)
Theorem normalizeType_idempotent (type : string) :
  (In (normalizeType type) supportedTypes \/ normalizeType type = type) /\
  normalizeType (normalizeType type) = normalizeType type.
Proof.
  unfold normalizeType at 1 2 4 5.
  destruct (includes type "https" || includes type "http") eqn:E1;
    [split; [left; vm_compute; auto 10|reflexivity]|].
  destruct (includes type "callable") eqn:E2;
    [split; [left; vm_compute; auto 10|reflexivity]|].
  destruct (includes type "firestore") eqn:E3;
    [split; [left; vm_compute; auto 10|reflexivity]|].
  destruct (includes type "auth") eqn:E4;
    [split; [left; vm_compute; auto 10|reflexivity]|].
  destruct (includes type "storage") eqn:E5;
    [split; [left; vm_compute; auto 10|reflexivity]|].
  destruct (includes type "pubsub") eqn:E6;
    [split; [left; vm_compute; auto 10|reflexivity]|].
  destruct (includes type "scheduler") eqn:E7;
    [split; [left; vm_compute; auto 10|reflexivity]|].
  split; [right; reflexivity|].
  unfold normalizeType. rewrite E1, E2, E3, E4, E5, E6, E7. reflexivity.
Qed.

End ExtractorMore.

(** ** More on the API Rewriter *)

Module RewriterMore.
Import Js Transpiler StringFacts.

(** The count [skip] makes the scan resume behind the matched text. *)
Lemma replaceAll_skip (rule : Rule) (a b : string) :
  replaceAll rule (String.length a) (a +:+ b) = replaceAll rule 0 b.
Proof.
  induction a as [|c a IH]; [reflexivity|].
  rewrite string_app_cons. simpl. exact IH.
Qed.

Lemma startsWith_split (pat s : string) :
  startsWith pat s = true -> s = pat +:+ substringFrom (String.length pat) s.
Proof.
  revert s. induction pat as [|a pat IH]; intros s; [reflexivity|].
  destruct s as [|b s]; [discriminate|]. simpl.
  intros [Hab Hrest]%andb_true_iff. apply Ascii.eqb_eq in Hab as ->.
  rewrite string_app_cons. f_equal. apply IH. exact Hrest.
Qed.

Lemma stripPrefix_app (pat s : string) : stripPrefix pat (pat +:+ s) = Some s.
Proof.
  induction pat as [|a pat IH]; [destruct s; reflexivity|].
  rewrite string_app_cons. simpl. rewrite Ascii.eqb_refl. exact IH.
Qed.

(** A rule that replaces a text by itself changes nothing, wherever the
    scan stands. *)
Lemma replaceAll_same (pat : string) :
  pat <> EmptyString ->
  forall s k, replaceAll (literal pat pat) k s = substringFrom k s.
Proof.
  intros Hpat. induction s as [|c s IH]; intros k; [destruct k; reflexivity|].
  destruct k as [|k]; simpl; [|apply IH].
  unfold literal at 1. destruct (startsWith pat (String c s)) eqn:E.
  - apply startsWith_split in E. rewrite IH.
    destruct pat as [|a pat]; [congruence|].
    simpl String.length in *.
    replace (S (String.length pat) - 1) with (String.length pat) by lia.
    simpl substringFrom in E. exact (eq_sym E).
  - rewrite IH. reflexivity.
Qed.

(** X6: two of the sixteen rules rewrite nothing: on every text, replacing
    [.update(] and replacing [.delete()] return the text as it is. *)
Theorem update_and_delete_rules_are_identity (code : string) :
  replace (literal ".update(" ".update(") code = code /\
  replace (literal ".delete()" ".delete()") code = code.
Proof.
  unfold replace. split.
  - apply (replaceAll_same ".update("); discriminate.
  - apply (replaceAll_same ".delete()"); discriminate.
Qed.

(** A match at the position of the scan. *)
Lemma replaceAll_match (rule : Rule) (c : ascii) (rest replacement : string) (len : nat) :
  rule (String c rest) = Some (replacement, len) ->
  replaceAll rule 0 (String c rest) = replacement +:+ replaceAll rule (len - 1) rest.
Proof. intros Hrule. simpl. rewrite Hrule. reflexivity. Qed.

Lemma quote_is_no_word (c : ascii) : isQuote c = true -> isWord c = false.
Proof.
  destruct c as [[] [] [] [] [] [] [] []]; vm_compute; congruence.
Qed.

(** A greedy class stops at the first character outside it. *)
Lemma span_run (p : ascii -> bool) (run : string) (stop : ascii) (rest : string) :
  allChars p run = true -> p stop = false ->
  span p (run +:+ String stop rest) = (run, String stop rest).
Proof.
  intros Hrun Hstop. induction run as [|c run IH].
  - rewrite string_app_nil_l. simpl. rewrite Hstop. reflexivity.
  - simpl in Hrun. apply andb_true_iff in Hrun as [Hc Hrun].
    rewrite string_app_cons. simpl. rewrite Hc, (IH Hrun). reflexivity.
Qed.

Lemma quoted_run (p : ascii -> bool) (q1 q2 : ascii) (run rest : string) :
  isQuote q1 = true -> isQuote q2 = true -> run <> EmptyString ->
  allChars p run = true -> p q2 = false ->
  quoted p (String q1 (run +:+ String q2 rest)) = Some (run, rest).
Proof.
  intros Hq1 Hq2 Hne Hrun Hstop. unfold quoted. rewrite Hq1, (span_run p run q2 rest Hrun Hstop).
  destruct run as [|c run]; [congruence|]. rewrite Hq2. reflexivity.
Qed.

(** X7: the accessor rules.  A collection accessor whose name is a
    non-empty run of word characters between any two of the three quotes
    becomes [.from('name')], and a document accessor whose identifier is a
    non-empty run of characters other than quotes becomes
    [.select().eq('id', 'identifier').single()]; in both cases the scan goes
    on behind the accessor. *)
Theorem accessor_rules_rewrite (q1 q2 : ascii) (name tail : string) :
  isQuote q1 = true -> isQuote q2 = true -> name <> EmptyString ->
  (allChars isWord name = true ->
   replace collectionRule
     (".collection(" +:+ String q1 (name +:+ String q2 (String ")" tail)))
   = (".from('" +:+ name +:+ "')") +:+ replace collectionRule tail) /\
  (allChars (fun c => negb (isQuote c)) name = true ->
   replace docRule (".doc(" +:+ String q1 (name +:+ String q2 (String ")" tail)))
   = (".select().eq('id', '" +:+ name +:+ "').single()") +:+ replace docRule tail).
Proof.
  intros Hq1 Hq2 Hne. split; intros Hname.
  - set (accessor := String q1 (name +:+ String q2 (String ")" tail))).
    assert (Hrule : collectionRule (".collection(" +:+ accessor)
                    = Some (".from('" +:+ name +:+ "')",
                            String.length ".collection(" + String.length name + 3)).
    { unfold collectionRule, accessor. rewrite stripPrefix_app.
      rewrite (quoted_run isWord q1 q2 name (String ")" tail) Hq1 Hq2 Hne Hname
                 (quote_is_no_word q2 Hq2)).
      reflexivity. }
    unfold replace.
    change (".collection(" +:+ accessor) with (String "." ("collection(" +:+ accessor)) in *.
    rewrite (replaceAll_match _ _ _ _ _ Hrule). f_equal.
    replace ("collection(" +:+ accessor)
      with (("collection(" +:+ String q1 (name +:+ String q2 (String ")" EmptyString)))
            +:+ tail).
    2:{ unfold accessor.
        rewrite !string_app_assoc, !string_app_cons, !string_app_assoc. reflexivity. }
    rewrite <- (replaceAll_skip collectionRule
                  ("collection(" +:+ String q1 (name +:+ String q2 (String ")" EmptyString)))
                  tail).
    f_equal. rewrite string_length_app.
    change (String.length ".collection(") with 12.
    change (String.length "collection(") with 11.
    cbn [String.length]. rewrite string_length_app. cbn [String.length]. lia.
  - set (accessor := String q1 (name +:+ String q2 (String ")" tail))).
    assert (Hrule : docRule (".doc(" +:+ accessor)
                    = Some (".select().eq('id', '" +:+ name +:+ "').single()",
                            String.length ".doc(" + String.length name + 3)).
    { assert (Hstop : negb (isQuote q2) = false) by (rewrite Hq2; reflexivity).
      unfold docRule, accessor. rewrite stripPrefix_app.
      rewrite (quoted_run (fun c => negb (isQuote c)) q1 q2 name (String ")" tail)
                 Hq1 Hq2 Hne Hname Hstop).
      reflexivity. }
    unfold replace.
    change (".doc(" +:+ accessor) with (String "." ("doc(" +:+ accessor)) in *.
    rewrite (replaceAll_match _ _ _ _ _ Hrule). f_equal.
    replace ("doc(" +:+ accessor)
      with (("doc(" +:+ String q1 (name +:+ String q2 (String ")" EmptyString))) +:+ tail).
    2:{ unfold accessor.
        rewrite !string_app_assoc, !string_app_cons, !string_app_assoc. reflexivity. }
    rewrite <- (replaceAll_skip docRule
                  ("doc(" +:+ String q1 (name +:+ String q2 (String ")" EmptyString))) tail).
    f_equal. rewrite string_length_app.
    change (String.length ".doc(") with 5.
    change (String.length "doc(") with 4.
    cbn [String.length]. rewrite string_length_app. cbn [String.length]. lia.
Qed.

Lemma accessor_rules_rewrite_witness :
  (allChars isWord "users" = true ->
   replace collectionRule
     (".collection(" +:+ String "'" ("users" +:+ String "'" (String ")" ".get()")))
   = (".from('" +:+ "users" +:+ "')") +:+ replace collectionRule ".get()") /\
  (allChars (fun c => negb (isQuote c)) "users" = true ->
   replace docRule (".doc(" +:+ String "'" ("users" +:+ String "'" (String ")" ".get()")))
   = (".select().eq('id', '" +:+ "users" +:+ "').single()") +:+ replace docRule ".get()").
Proof.
  exact (accessor_rules_rewrite "'" "'" "users" ".get()" eq_refl eq_refl
           ltac:(discriminate)).
Defined.

End RewriterMore.

(** ** Template helpers *)

Module TemplateFacts.
Import Js Transpiler StringFacts.

Lemma splitLines_nonempty (s : string) : splitLines s <> [].
Proof.
  induction s as [|c s IH]; simpl; [discriminate|].
  destruct (Ascii.eqb c lineFeed); [discriminate|].
  destruct (splitLines s); discriminate.
Qed.

(** Joining the lines of a text gives the text back. *)
Lemma join_split (s : string) : joinLines (splitLines s) = s.
Proof.
  induction s as [|c s IH]; [reflexivity|]. simpl.
  destruct (Ascii.eqb c lineFeed) eqn:E.
  - apply Ascii.eqb_eq in E. subst c.
    pose proof (splitLines_nonempty s) as Hne.
    destruct (splitLines s) as [|line lines]; [congruence|].
    change (joinLines (EmptyString :: line :: lines))
      with (EmptyString +:+ String lineFeed (joinLines (line :: lines))).
    rewrite IH. reflexivity.
  - pose proof (splitLines_nonempty s) as Hne.
    destruct (splitLines s) as [|line [|line' lines]]; [congruence| |].
    + simpl in *. rewrite IH. reflexivity.
    + change (joinLines (String c line :: line' :: lines))
        with (String c line +:+ String lineFeed (joinLines (line' :: lines))).
      change (joinLines (line :: line' :: lines))
        with (line +:+ String lineFeed (joinLines (line' :: lines))) in IH.
      rewrite string_app_cons, IH. reflexivity.
Qed.

Lemma splitLines_lines (s : string) : Forall isLine (splitLines s).
Proof.
  unfold isLine. induction s as [|c s IH]; simpl; [repeat constructor|].
  destruct (Ascii.eqb c lineFeed) eqn:E; [constructor; [reflexivity|exact IH]|].
  pose proof (splitLines_nonempty s) as Hne.
  destruct (splitLines s) as [|line lines]; [congruence|].
  inversion IH as [|? ? Hline Hlines]; subst.
  constructor; [simpl; fold lineFeed; rewrite E; exact Hline|exact Hlines].
Qed.

Lemma split_line (line : string) : isLine line -> splitLines line = [line].
Proof.
  unfold isLine. induction line as [|c line IH]; [reflexivity|]. simpl. fold lineFeed.
  destruct (Ascii.eqb c lineFeed); [discriminate|]. intros Hline.
  rewrite (IH Hline). reflexivity.
Qed.

Lemma split_line_then (line rest : string) :
  isLine line -> splitLines (line +:+ String lineFeed rest) = line :: splitLines rest.
Proof.
  unfold isLine. induction line as [|c line IH].
  - intros _. rewrite string_app_nil_l. reflexivity.
  - intros Hline. simpl in Hline. fold lineFeed in Hline.
    destruct (Ascii.eqb c lineFeed) eqn:E; [discriminate|].
    rewrite string_app_cons. simpl. rewrite E, (IH Hline). reflexivity.
Qed.

(** Splitting the join of lines gives the lines back. *)
Lemma split_join (lines : list string) :
  lines <> [] -> Forall isLine lines -> splitLines (joinLines lines) = lines.
Proof.
  induction lines as [|line lines IH]; [congruence|]. intros _ Hall.
  inversion Hall as [|? ? Hline Hlines]; subst.
  destruct lines as [|line' lines].
  - apply split_line. exact Hline.
  - change (joinLines (line :: line' :: lines))
      with (line +:+ String lineFeed (joinLines (line' :: lines))).
    rewrite (split_line_then _ _ Hline), IH; [reflexivity|discriminate|exact Hlines].
Qed.

Lemma isBlank_spaces (n : nat) (line : string) : isBlank (spaces n +:+ line) = isBlank line.
Proof.
  induction n as [|n IH]; [reflexivity|].
  simpl spaces. rewrite string_app_cons. simpl. exact IH.
Qed.

Lemma spaces_add (m n : nat) : spaces (m + n) = spaces m +:+ spaces n.
Proof.
  induction m as [|m IH]; [reflexivity|].
  simpl. rewrite string_app_cons, IH. reflexivity.
Qed.

Lemma spaces_line (n : nat) : isLine (spaces n).
Proof. unfold isLine. induction n as [|n IH]; [reflexivity|exact IH]. Qed.

Lemma indentLine_line (n : nat) (line : string) :
  isLine line -> isLine (indentLine (spaces n) line).
Proof.
  unfold indentLine, isLine. intros Hline.
  destruct (negb (isBlank line)); [|exact Hline].
  rewrite countChar_app, Hline. pose proof (spaces_line n) as Hs. unfold isLine in Hs.
  rewrite Hs. reflexivity.
Qed.

Lemma indentLine_twice (m n : nat) (line : string) :
  indentLine (spaces m) (indentLine (spaces n) line) = indentLine (spaces (m + n)) line.
Proof.
  unfold indentLine. destruct (isBlank line) eqn:E; cbn [negb].
  - rewrite E. reflexivity.
  - rewrite isBlank_spaces, E. cbn [negb].
    rewrite spaces_add, string_app_assoc. reflexivity.
Qed.

Lemma indentLine_none (line : string) : indentLine (spaces 0) line = line.
Proof. unfold indentLine. destruct (negb (isBlank line)); reflexivity. Qed.

(** The lines of the indented code are the indented lines of the code. *)
Lemma indentCode_lines (code : string) (n : nat) :
  splitLines (indentCode code n) = map (indentLine (spaces n)) (splitLines code).
Proof.
  unfold indentCode. apply split_join.
  - pose proof (splitLines_nonempty code) as Hne.
    destruct (splitLines code); [congruence|discriminate].
  - pose proof (splitLines_lines code) as Hall.
    induction Hall as [|line lines Hline _ IH]; constructor;
      [apply indentLine_line; exact Hline|exact IH].
Qed.

(** X8: [indentCode] keeps the lines of the code, puts the indent in front
    of exactly the lines that have a character other than white space, and
    composes: indenting by [n] and then by [m] is indenting by [m + n], and
    indenting by nothing returns the code. *)
Theorem indentCode_composes (code : string) (m n : nat) :
  indentCode (indentCode code n) m = indentCode code (m + n) /\
  indentCode code 0 = code /\
  splitLines (indentCode code n)
  = map (fun line => if isBlank line then line else spaces n +:+ line) (splitLines code).
Proof.
  split; [|split].
  - unfold indentCode at 1. rewrite indentCode_lines, map_map.
    unfold indentCode. f_equal. apply map_ext. intros line. apply indentLine_twice.
  - unfold indentCode. rewrite (map_ext _ (fun line => line) indentLine_none), map_id.
    apply join_split.
  - rewrite indentCode_lines. apply map_ext. intros line. unfold indentLine.
    destruct (isBlank line); reflexivity.
Qed.

End TemplateFacts.

(** ** Candidate files *)

Module FilesFacts.
Import Js Transpiler StringFacts.







End FilesFacts.

(** ** More on the Document-Tree Exporter *)

Module ExporterMore.
Import Js Exporter StringFacts Samples.

(** The walk, in terms of its two loops. *)
Lemma export_loops i fields collections parent parentId maxDepth depth limit :
  forall st,
    exportSubcollectionsAsSeparateFiles (Doc i fields (Ok collections))
      parent parentId maxDepth depth limit st
    = if maxDepth <=? depth then st
      else eachCollection
             (fun doc table st =>
                exportSubcollectionsAsSeparateFiles doc table (docId doc)
                  maxDepth (depth + 1) limit st)
             parent parentId maxDepth depth limit collections st.
Proof.
  intros st. cbn [exportSubcollectionsAsSeparateFiles].
  destruct (maxDepth <=? depth); [reflexivity|].
  revert st. induction collections as [|[name [docs|e]] collections IH]; intros st.
  - reflexivity.
  - cbn [eachCollection].
    match goal with
    | |- context [?loop limit docs st] =>
        assert (Hdocs : forall k ds st',
                   loop k ds st'
                   = eachDocument
                       (fun doc table st =>
                          exportSubcollectionsAsSeparateFiles doc table (docId doc)
                            maxDepth (depth + 1) limit st)
                       parent parentId maxDepth depth name (tableNameOf parent name depth)
                       k ds st')
    end.
    { intros k ds. revert k.
      induction ds as [|doc ds IHds]; intros k st'; [destruct k; reflexivity|].
      destruct k as [|k]; [reflexivity|]. cbn [eachDocument]. rewrite <- IHds. reflexivity. }
    rewrite <- Hdocs. apply IH.
  - reflexivity.
Qed.

Lemma export_throw i fields e parent parentId maxDepth depth limit st :
  exportSubcollectionsAsSeparateFiles (Doc i fields (Throw e))
    parent parentId maxDepth depth limit st
  = if maxDepth <=? depth then st
    else consoleError ("Error processing subcollections: " +:+ e) st.
Proof. reflexivity. Qed.

Lemma export_at_depth (docRef : FsDoc) parent parentId maxDepth depth limit st :
  maxDepth <= depth ->
  exportSubcollectionsAsSeparateFiles docRef parent parentId maxDepth depth limit st = st.
Proof.
  intros Hdepth. apply Nat.leb_le in Hdepth.
  destruct docRef as [i fields [collections|e]];
    [rewrite export_loops|rewrite export_throw]; rewrite Hdepth; reflexivity.
Qed.

Lemma visible_docId levels limit (d : FsDoc) : docId (visible levels limit d) = docId d.
Proof. destruct levels, d as [i fields [collections|e]]; reflexivity. Qed.

Lemma visible_data levels limit (d : FsDoc) : data (visible levels limit d) = data d.
Proof. destruct levels, d as [i fields [collections|e]]; reflexivity. Qed.

Lemma stampNested_visible parent parentId sub depth levels limit (d : FsDoc) :
  stampNested parent parentId sub depth (visible levels limit d)
  = stampNested parent parentId sub depth d.
Proof. unfold stampNested. rewrite visible_docId, visible_data. reflexivity. Qed.

Section Reach.
Variable nested : FsDoc -> string -> State -> State.
Variables parent parentId : string.
Variables maxDepth depth limit levels : nat.
Hypothesis nested_visible :
  depth + 1 < maxDepth ->
  forall doc table st, nested (visible levels limit doc) table st = nested doc table st.

Lemma eachDocument_visible name table (docs : list FsDoc) :
  forall k k' st, k <= k' ->
    eachDocument nested parent parentId maxDepth depth name table k'
      (map (visible levels limit) (firstn k docs)) st
    = eachDocument nested parent parentId maxDepth depth name table k docs st.
Proof.
  induction docs as [|doc docs IH]; intros k k' st Hk.
  - rewrite firstn_nil. destruct k, k'; reflexivity.
  - destruct k as [|k]; [destruct k'; reflexivity|].
    destruct k' as [|k']; [lia|].
    cbn [firstn map eachDocument]. rewrite stampNested_visible.
    destruct (depth + 1 <? maxDepth) eqn:E.
    + apply Nat.ltb_lt in E. rewrite (nested_visible E). apply IH. lia.
    + apply IH. lia.
Qed.

Lemma eachCollection_visible (collections : list (string * Result (list FsDoc))) :
  forall st,
    eachCollection nested parent parentId maxDepth depth limit
      (map (fun c : string * Result (list FsDoc) =>
              (fst c,
               match snd c with
               | Ok docs => Ok (map (visible levels limit) (firstn limit docs))
               | Throw e => Throw e
               end)) collections) st
    = eachCollection nested parent parentId maxDepth depth limit collections st.
Proof.
  induction collections as [|[name [docs|e]] collections IH]; intros st;
    [reflexivity| |reflexivity].
  cbn [map fst snd eachCollection]. rewrite IH, eachDocument_visible by lia. reflexivity.
Qed.

End Reach.

Lemma walk_visible (levels : nat) :
  forall (docRef : FsDoc) parent parentId maxDepth depth limit st,
    maxDepth - depth = levels ->
    exportSubcollectionsAsSeparateFiles (visible levels limit docRef)
      parent parentId maxDepth depth limit st
    = exportSubcollectionsAsSeparateFiles docRef parent parentId maxDepth depth limit st.
Proof.
  induction levels as [|levels IH];
    intros docRef parent parentId maxDepth depth limit st Hlevels.
  - rewrite !export_at_depth by lia. reflexivity.
  - destruct docRef as [i fields [collections|e]]; [|reflexivity].
    cbn [visible]. rewrite !export_loops.
    destruct (maxDepth <=? depth); [reflexivity|].
    apply eachCollection_visible.
    intros Hdeeper doc table st'. rewrite visible_docId. apply IH. lia.
Qed.

(** X10: the walk reads no more of the tree than its two guards allow: its
    result is the same on the tree cut down to the levels left below the
    current depth and, in every nested collection, to the first
    [subcollectionLimit] documents.  In particular a document at depth
    [maxDepth] is never asked for its collections. *)
Theorem walk_reads_only_visible_part
  (docRef : FsDoc) (parent parentId : string) (maxDepth depth limit : nat) (st : State) :
  exportSubcollectionsAsSeparateFiles docRef parent parentId maxDepth depth limit st
  = exportSubcollectionsAsSeparateFiles (visible (maxDepth - depth) limit docRef)
      parent parentId maxDepth depth limit st.
Proof. symmetry. apply walk_visible. reflexivity. Qed.

(** *** Linkage of nested records *)

Lemma tableNameOf_relationOf parent name depth :
  tableNameOf parent name depth = relationOf parent name depth.
Proof. unfold tableNameOf, relationOf. destruct (Nat.eqb depth 0); reflexivity. Qed.

Lemma stamped_is_linked parent parentId name depth (doc : FsDoc) :
  linked {| parentRelation := parent; parentDocument := parentId; inCollection := name;
            atDepth := depth; nestedDocument := doc |}
    (tableNameOf parent name depth, stampNested parent parentId name depth doc).
Proof.
  unfold linked. cbn [fst snd parentRelation parentDocument inCollection atDepth nestedDocument].
  split; [apply tableNameOf_relationOf|].
  unfold stampNested.
  set (identified := if negb (truthy (field (data doc) "firestore_id")) then _ else _).
  assert (Hpath : field (<["parent_document_id" := VString parentId]>
                           (<["parent_collection" := VString parent]> identified))
                    "collection_path"
                  = field (data doc) "collection_path").
  { unfold field. rewrite !lookup_insert_ne by discriminate. subst identified.
    destruct (negb (truthy _)); [rewrite lookup_insert_ne by discriminate|]; reflexivity. }
  rewrite Hpath. repeat split.
  - rewrite !lookup_insert_ne by discriminate. apply lookup_insert_eq.
  - rewrite lookup_insert_ne by discriminate. apply lookup_insert_eq.
  - rewrite lookup_insert_eq. destruct (Nat.eqb depth 0); reflexivity.
  - unfold field at 1. rewrite !lookup_insert_ne by discriminate. subst identified.
    destruct (truthy (field (data doc) "firestore_id")) eqn:Eid; cbn [negb].
    + reflexivity.
    + rewrite lookup_insert_eq. reflexivity.
  - intros key Hkey.
    assert (Hne : key <> "firestore_id" /\ key <> "parent_collection" /\
                  key <> "parent_document_id" /\ key <> "collection_path").
    { unfold nestedFields in Hkey. cbn [In] in Hkey. repeat split; intros ->; tauto. }
    destruct Hne as (H1 & H2 & H3 & H4).
    rewrite !lookup_insert_ne by congruence. subst identified.
    destruct (negb (truthy _)); [rewrite lookup_insert_ne by congruence|]; reflexivity.
Qed.

Section Adds.
Variable Q : string * gmap string Value -> Prop.

Lemma adds_refl (st : State) : adds Q st st.
Proof. exists []. rewrite app_nil_r. split; [reflexivity|constructor]. Qed.

Lemma adds_trans (st1 st2 st3 : State) : adds Q st1 st2 -> adds Q st2 st3 -> adds Q st1 st3.
Proof.
  intros (r1 & H1 & F1) (r2 & H2 & F2). exists (r1 ++ r2).
  rewrite H2, H1, <- List.app_assoc. split; [reflexivity|].
  apply Forall_app. split; assumption.
Qed.

(** A step that only appends keeps what was written. *)
Lemma adds_keeps (st st' : State) (entry : string * gmap string Value) :
  adds Q st st' -> In entry (written st) -> In entry (written st').
Proof. intros (records & -> & _) Hin. apply in_or_app. left. exact Hin. Qed.

(** [writeRecord] appends the record or, when the relation holds it
    already, nothing. *)
Lemma writeRecord_adds name record (st : State) :
  Q (name, record) -> adds Q st (writeRecord name record st).
Proof.
  intros Hq. unfold writeRecord. destruct (decide _); [apply adds_refl|].
  exists [(name, record)]. split; [reflexivity|]. constructor; [exact Hq|constructor].
Qed.

Lemma consoleError_adds message (st : State) : adds Q st (consoleError message st).
Proof. exists []. cbn. rewrite app_nil_r. split; [reflexivity|constructor]. Qed.

End Adds.

(** After [writeRecord] the relation holds the record. *)
Lemma writeRecord_holds name record (st : State) :
  In (name, record) (written (writeRecord name record st)).
Proof.
  unfold writeRecord. destruct (decide _) as [Hin|_].
  - apply list_elem_of_In. exact Hin.
  - cbn. apply in_or_app. right. left. reflexivity.
Qed.

Lemma adds_weaken (Q Q' : string * gmap string Value -> Prop) (st st' : State) :
  (forall entry, Q entry -> Q' entry) -> adds Q st st' -> adds Q' st st'.
Proof.
  intros Himp (records & Hw & Hall). exists records. split; [exact Hw|].
  eapply Forall_impl; [exact Hall|exact Himp].
Qed.

Section Linkage.
Variable nested : FsDoc -> string -> State -> State.
Variables parent parentId : string.
Variables maxDepth depth limit : nat.
Variable Q : string * gmap string Value -> Prop.

Lemma eachDocument_adds name (docs : list FsDoc) :
  forall k st,
    (forall doc, In doc (firstn k docs) ->
       Q (tableNameOf parent name depth, stampNested parent parentId name depth doc)) ->
    (forall doc st', In doc (firstn k docs) -> depth + 1 < maxDepth ->
       adds Q st' (nested doc (tableNameOf parent name depth) st')) ->
    adds Q st
      (eachDocument nested parent parentId maxDepth depth name
         (tableNameOf parent name depth) k docs st).
Proof.
  induction docs as [|doc docs IH]; intros k st Hrecord Hnested;
    [destruct k; apply adds_refl|].
  destruct k as [|k]; [apply adds_refl|]. cbn [eachDocument]. cbn [firstn] in Hrecord, Hnested.
  set (record := stampNested parent parentId name depth doc).
  apply (adds_trans Q st (writeRecord (tableNameOf parent name depth) record st)).
  - apply writeRecord_adds. apply Hrecord. left. reflexivity.
  - eapply adds_trans; [|apply IH].
    + destruct (depth + 1 <? maxDepth) eqn:E; [|apply adds_refl].
      apply Nat.ltb_lt in E. apply Hnested; [left; reflexivity|exact E].
    + intros doc' Hin. apply Hrecord. right. exact Hin.
    + intros doc' st' Hin. apply Hnested. right. exact Hin.
Qed.

Lemma eachCollection_adds (collections : list (string * Result (list FsDoc))) :
  forall st,
    (forall name docs doc, In (name, docs) (readable collections) ->
       In doc (firstn limit docs) ->
       Q (tableNameOf parent name depth, stampNested parent parentId name depth doc)) ->
    (forall name docs doc st', In (name, docs) (readable collections) ->
       In doc (firstn limit docs) -> depth + 1 < maxDepth ->
       adds Q st' (nested doc (tableNameOf parent name depth) st')) ->
    adds Q st (eachCollection nested parent parentId maxDepth depth limit collections st).
Proof.
  induction collections as [|[name [docs|e]] collections IH]; intros st Hrecord Hnested;
    cbn [eachCollection]; cbn [readable] in Hrecord, Hnested.
  - apply adds_refl.
  - eapply adds_trans.
    + apply eachDocument_adds.
      * intros doc Hin. apply (Hrecord name docs doc); [left; reflexivity|exact Hin].
      * intros doc st' Hin. apply (Hnested name docs doc); [left; reflexivity|exact Hin].
    + apply IH.
      * intros name' docs' doc Hc. apply Hrecord. right. exact Hc.
      * intros name' docs' doc st' Hc. apply Hnested. right. exact Hc.
  - apply consoleError_adds.
Qed.

End Linkage.

Section Writes.
Variable nested : FsDoc -> string -> State -> State.
Variables parent parentId : string.
Variables maxDepth depth limit : nat.

(** The loops write the record of every document they reach. *)
Lemma eachDocument_writes name (docs : list FsDoc) :
  forall k st doc,
    (forall doc' st', adds (fun _ => True) st' (nested doc' (tableNameOf parent name depth) st')) ->
    In doc (firstn k docs) ->
    In (tableNameOf parent name depth, stampNested parent parentId name depth doc)
       (written (eachDocument nested parent parentId maxDepth depth name
                   (tableNameOf parent name depth) k docs st)).
Proof.
  induction docs as [|doc0 docs IH]; intros k st doc Hnested Hin;
    [rewrite firstn_nil in Hin; destruct Hin|].
  destruct k as [|k]; [destruct Hin|]. cbn [eachDocument]. cbn [firstn] in Hin.
  destruct Hin as [<-|Hin]; [|apply IH; assumption].
  set (table := tableNameOf parent name depth).
  set (record := stampNested parent parentId name depth doc0).
  apply (adds_keeps (fun _ => True)
           (if depth + 1 <? maxDepth
            then nested doc0 table (writeRecord table record st)
            else writeRecord table record st)).
  - apply eachDocument_adds; [intros; exact I|].
    intros doc' st' _ _. apply Hnested.
  - destruct (depth + 1 <? maxDepth); [|apply writeRecord_holds].
    eapply adds_keeps; [apply Hnested|apply writeRecord_holds].
Qed.

Lemma eachCollection_writes (collections : list (string * Result (list FsDoc))) :
  forall st name docs doc,
    (forall doc' table st', adds (fun _ => True) st' (nested doc' table st')) ->
    In (name, docs) (readable collections) -> In doc (firstn limit docs) ->
    In (tableNameOf parent name depth, stampNested parent parentId name depth doc)
       (written (eachCollection nested parent parentId maxDepth depth limit collections st)).
Proof.
  induction collections as [|[name0 [docs0|e]] collections IH];
    intros st name docs doc Hnested Hc Hdoc; cbn [readable] in Hc;
    [destruct Hc| |destruct Hc].
  cbn [eachCollection]. destruct Hc as [[= <- <-]|Hc]; [|eapply IH; eassumption].
  apply (adds_keeps (fun _ => True)
           (eachDocument nested parent parentId maxDepth depth name0
              (tableNameOf parent name0 depth) limit docs0 st)).
  - apply eachCollection_adds; [intros; exact I|].
    intros name' docs' doc' st' _ _ _. apply Hnested.
  - apply eachDocument_writes; [|exact Hdoc]. intros doc' st'. apply Hnested.
Qed.

End Writes.

Lemma walk_linked (levels : nat) :
  forall (docRef : FsDoc) parent parentId maxDepth depth limit st,
    maxDepth - depth <= levels ->
    adds (fun entry =>
            exists place,
              placeBelow maxDepth limit docRef parent parentId depth place /\
              linked place entry)
      st (exportSubcollectionsAsSeparateFiles docRef parent parentId maxDepth depth limit st).
Proof.
  induction levels as [|levels IH];
    intros docRef parent parentId maxDepth depth limit st Hlevels.
  - rewrite export_at_depth by lia. apply adds_refl.
  - destruct docRef as [i fields [collections|e]].
    + rewrite export_loops. destruct (maxDepth <=? depth) eqn:Edepth; [apply adds_refl|].
      apply Nat.leb_gt in Edepth.
      apply eachCollection_adds.
      * intros name docs doc Hc Hdoc. eexists. split; [|apply stamped_is_linked].
        eapply place_child; [exact Edepth|reflexivity|exact Hc|exact Hdoc].
      * intros name docs doc st' Hc Hdoc Hdeeper.
        eapply adds_weaken; [|apply IH; lia].
        intros entry (place & Hplace & Hlinked). exists place. split; [|exact Hlinked].
        eapply place_deeper; [exact Edepth|reflexivity|exact Hc|exact Hdoc|].
        rewrite <- tableNameOf_relationOf. exact Hplace.
    + rewrite export_throw. destruct (maxDepth <=? depth); [apply adds_refl|].
      apply consoleError_adds.
Qed.

(** X11: the records of the walk.  The walk only appends to the records
    written, and every record it appends is the record of a nested document
    it can reach, linked to the parent of that document: the record of a
    document found in the nested collection [name] of the document the walk
    was started for goes to the relation [parent_name] and carries the
    relation [parent] and the identifier [parentId] the walk was given; the
    record of a document found one level deeper, below a nested document
    [doc], goes to the relation of [doc] extended by an underscore and the
    sanitised name of its collection, and carries the relation and the
    identifier of [doc]; and so on down the tree.  The fields of the source
    document other than the four the walk sets are kept.  And the walk misses
    no document of the first level: when it returns, the record of each of
    the first [limit] documents of each nested collection before the first
    one that cannot be read is among the records written. *)
Theorem walk_writes_linked_records
  (docRef : FsDoc) (parent parentId : string) (maxDepth depth limit : nat) (st : State) :
  let st' :=
    exportSubcollectionsAsSeparateFiles docRef parent parentId maxDepth depth limit st in
  (exists records,
      written st' = written st ++ records /\
      Forall (fun entry =>
                exists place,
                  placeBelow maxDepth limit docRef parent parentId depth place /\
                  linked place entry) records) /\
  (forall collections name docs doc,
      depth < maxDepth ->
      listCollections docRef = Ok collections ->
      In (name, docs) (readable collections) ->
      In doc (firstn limit docs) ->
      exists entry,
        In entry (written st') /\
        linked {| parentRelation := parent; parentDocument := parentId;
                  inCollection := name; atDepth := depth; nestedDocument := doc |} entry).
Proof.
  cbv zeta. split; [apply (walk_linked (maxDepth - depth)); reflexivity|].
  intros collections name docs doc Hdepth Hlist Hc Hdoc.
  destruct docRef as [i fields read]. cbn [listCollections] in Hlist. subst read.
  eexists. split; [|apply stamped_is_linked].
  rewrite export_loops. apply Nat.leb_gt in Hdepth. rewrite Hdepth.
  apply (eachCollection_writes _ _ _ _ _ _ collections st name docs doc); [|exact Hc|exact Hdoc].
  intros doc' table st'. eapply adds_weaken; [|apply (walk_linked (maxDepth - (depth + 1)))].
  - intros; exact I.
  - reflexivity.
Qed.

(** The walk below the document [u1] of the sample store: one record of
    the first level and one of the second. *)
Example walk_sample :
  map fst (written (exportSubcollectionsAsSeparateFiles user1 "users" "u1" 3 0 100
                      initialState))
  = ["users_posts"; "users_posts_comments"].
Proof. reflexivity. Qed.

(** *** The identity field of a root document *)

(** X12: the identity rule of a root document.  No field other than the
    four candidates is touched and no candidate with a truthy value is
    overwritten; the identifier goes under the first candidate, in the
    order tried, whose value is falsy; and when all four are taken the
    document is left as it is, without its identifier. *)
Theorem root_identity_rule (fsdocId : string) (doc : gmap string Value) :
  (forall key, ~ In key identityFields -> assignIdentity fsdocId doc !! key = doc !! key) /\
  (forall key, truthy (field doc key) = true ->
     field (assignIdentity fsdocId doc) key = field doc key) /\
  (Forall (fun key => truthy (field doc key) = true) identityFields ->
     assignIdentity fsdocId doc = doc) /\
  (forall taken key rest,
     identityFields = taken ++ key :: rest ->
     Forall (fun k => truthy (field doc k) = true) taken ->
     truthy (field doc key) = false ->
     field (assignIdentity fsdocId doc) key = VString fsdocId).
Proof.
  unfold assignIdentity, identityFields.
  split; [|split; [|split]].
  - intros key Hkey. simpl in Hkey.
    repeat match goal with
           | |- context [if ?c then _ else _] => destruct c
           end;
      try reflexivity; apply lookup_insert_ne; intros <-; tauto.
  - intros key Hkey.
    destruct (truthy (field doc "firestore_id")) eqn:E1; cbn [negb].
    2:{ unfold field at 1. destruct (decide (key = "firestore_id")) as [->|Hne];
        [congruence|rewrite lookup_insert_ne by congruence; reflexivity]. }
    destruct (truthy (field doc "firestoreid")) eqn:E2; cbn [negb].
    2:{ unfold field at 1. destruct (decide (key = "firestoreid")) as [->|Hne];
        [congruence|rewrite lookup_insert_ne by congruence; reflexivity]. }
    destruct (truthy (field doc "original_id")) eqn:E3; cbn [negb].
    2:{ unfold field at 1. destruct (decide (key = "original_id")) as [->|Hne];
        [congruence|rewrite lookup_insert_ne by congruence; reflexivity]. }
    destruct (truthy (field doc "originalid")) eqn:E4; cbn [negb]; [reflexivity|].
    unfold field at 1. destruct (decide (key = "originalid")) as [->|Hne];
      [congruence|rewrite lookup_insert_ne by congruence; reflexivity].
  - intros Hall.
    inversion Hall as [|? ? H1 Hall1]; subst. inversion Hall1 as [|? ? H2 Hall2]; subst.
    inversion Hall2 as [|? ? H3 Hall3]; subst. inversion Hall3 as [|? ? H4 _]; subst.
    rewrite H1, H2, H3, H4. reflexivity.
  - intros taken key rest Hsplit Htaken Hfree.
    destruct taken as [|k1 taken]; simpl in Hsplit.
    { injection Hsplit as <- _. rewrite Hfree. cbn [negb]. unfold field.
      rewrite lookup_insert_eq. reflexivity. }
    injection Hsplit as <- Hsplit.
    inversion Htaken as [|? ? H1 Htaken1]; subst. rewrite H1. cbn [negb].
    destruct taken as [|k2 taken]; simpl in Hsplit.
    { injection Hsplit as <- _. rewrite Hfree. cbn [negb]. unfold field.
      rewrite lookup_insert_eq. reflexivity. }
    injection Hsplit as <- Hsplit.
    inversion Htaken1 as [|? ? H2 Htaken2]; subst. rewrite H2. cbn [negb].
    destruct taken as [|k3 taken]; simpl in Hsplit.
    { injection Hsplit as <- _. rewrite Hfree. cbn [negb]. unfold field.
      rewrite lookup_insert_eq. reflexivity. }
    injection Hsplit as <- Hsplit.
    inversion Htaken2 as [|? ? H3 Htaken3]; subst. rewrite H3. cbn [negb].
    destruct taken as [|k4 taken]; simpl in Hsplit.
    { injection Hsplit as <- _. rewrite Hfree. cbn [negb]. unfold field.
      rewrite lookup_insert_eq. reflexivity. }
    injection Hsplit as _ Hsplit. destruct taken; discriminate.
Qed.

(** *** Relation names *)

Lemma sanitize_char (c : ascii) :
  let keep := fun c => isLower c || isUpper c || isDigit c in
  let c' := if keep c then c else "_"%char in
  (keep c' || Ascii.eqb c' "_" = true) /\ (if keep c' then c' else "_"%char) = c'.
Proof.
  cbv zeta. destruct (isLower c || isUpper c || isDigit c) eqn:E.
  - rewrite E. split; reflexivity.
  - split; reflexivity.
Qed.

(** X13: [sanitize] keeps the length of a name, leaves only letters,
    digits and underscores in it, and changes nothing when applied again;
    it is applied to the names of the nested collections below the first
    level only: a first-level relation is named with the collection name as
    it is. *)
Theorem sanitize_makes_safe_names (name parent : string) (depth : nat) :
  String.length (sanitize name) = String.length name /\
  allChars (fun c => isLower c || isUpper c || isDigit c || Ascii.eqb c "_") (sanitize name)
  = true /\
  sanitize (sanitize name) = sanitize name /\
  tableNameOf parent name 0 = parent +:+ "_" +:+ name /\
  tableNameOf parent name (S depth) = parent +:+ "_" +:+ sanitize name.
Proof.
  split; [|split; [|split; [|split; reflexivity]]].
  - induction name as [|c name IH]; [reflexivity|]. simpl. rewrite IH. reflexivity.
  - induction name as [|c name IH]; [reflexivity|]. simpl.
    destruct (sanitize_char c) as [Hsafe _]. cbv zeta in Hsafe. rewrite Hsafe. exact IH.
  - induction name as [|c name IH]; [reflexivity|]. simpl.
    destruct (sanitize_char c) as [_ Hsame]. cbv zeta in Hsame. rewrite Hsame, IH.
    reflexivity.
Qed.

(** *** Paging *)

Section PagingMore.
Variable db : Firestore.
Variable processDocument : option (string -> gmap string Value -> gmap string Value).





End PagingMore.


(** The run behind the witness: one document, a limit of one, two calls. *)
Example paging_at_limit_one :
  option_map (fun st => (written st, recordCounters st !! "users"))
    (getAll blog None 2 "users" 0 1000 1 false 3 100 initialState)
  = Some ([("users", <["firestore_id" := VString "u1"]> (data user1))], Some 1).
Proof. reflexivity. Qed.


End ExporterMore.
